(** * drone-downstream: the trigger / poll / block orchestration of
    [internal/plugin/impl.go], embedded and verified.

    The Go code is embedded shallowly.  Strings are byte strings, the
    parameter mapping [map[string]string] is a [gmap string string], the
    remote CI client (package drone-go, an external collaborator) is a record
    of state-passing functions over an abstract server state, and the two
    [select] loops are driven by the sequence of channels on which the
    successive selects receive.  Every client call is logged, so that
    statements about "no trigger" or "exactly one cancel" are statements
    about the log.  The state of a run also counts the signal channels that
    the process has closed and left registered, on which a later signal
    panics.  The progress lines written to standard output are left out:
    nothing in the plugin reads them.  An [int] has 64 bits. *)

From Stdlib Require Import ZArith Ascii String DecimalString.
From stdpp Require Import base tactics option list gmap strings.

Local Open Scope Z_scope.

(** ** Go's [strings] and [strconv] functions used by the plugin *)

Module GoStrings.

(** [len(s) == 0]. *)
Definition isEmpty (s : string) : bool :=
  match s with
  | EmptyString => true
  | String _ _ => false
  end.

(** Does byte [c] occur in [s]? *)
Fixpoint occurs (c : ascii) (s : string) : bool :=
  match s with
  | EmptyString => false
  | String d s' => if Ascii.eqb d c then true else occurs c s'
  end.

(** [strings.Split(s, sep)] for a one-byte separator: the substrings
    between the separators, one more than there are separators; the empty
    string gives one empty substring. *)
Fixpoint Split (sep : ascii) (s : string) : list string :=
  match s with
  | EmptyString => [EmptyString]
  | String c s' =>
      if Ascii.eqb c sep then EmptyString :: Split sep s'
      else match Split sep s' with
           | [] => [String c EmptyString]
           | p :: ps => String c p :: ps
           end
  end.

(** [strings.SplitN(s, sep, 2)] for a one-byte separator: cut at the first
    separator, or the whole string alone when there is none. *)
Fixpoint SplitN2 (sep : ascii) (s : string) : list string :=
  match s with
  | EmptyString => [EmptyString]
  | String c s' =>
      if Ascii.eqb c sep then [EmptyString; s']
      else match SplitN2 sep s' with
           | p :: ps => String c p :: ps
           | [] => [String c EmptyString]
           end
  end.

Definition isDigit (c : ascii) : bool :=
  let n := nat_of_ascii c in (48 <=? n)%nat && (n <=? 57)%nat.

(** The decimal value of a string of digits, [None] on any other byte. *)
Fixpoint digits (s : string) (acc : Z) : option Z :=
  match s with
  | EmptyString => Some acc
  | String c s' =>
      if isDigit c
      then digits s' (10 * acc + (Z.of_nat (nat_of_ascii c) - 48))
      else None
  end.

(** [strconv.Atoi]: an optional sign and at least one decimal digit, in the
    range of a 64-bit [int].  The flag is [err == nil].  A syntax error
    gives 0, a range error the nearest bound. *)
Definition Atoi (s : string) : Z * bool :=
  match s with
  | EmptyString => (0, false)
  | String c s' =>
      let '(neg, body) :=
        if Ascii.eqb c "-" then (true, s')
        else if Ascii.eqb c "+" then (false, s')
        else (false, s) in
      if isEmpty body then (0, false)
      else match digits body 0 with
           | None => (0, false)
           | Some v =>
               if neg
               then (if v <=? 2 ^ 63 then (- v, true) else (- 2 ^ 63, false))
               else (if v <? 2 ^ 63 then (v, true) else (2 ^ 63 - 1, false))
           end
  end.

(** [%d] / [%v] of an integer. *)
Definition Itoa (n : Z) : string := NilZero.string_of_int (Z.to_int n).

End GoStrings.
Import GoStrings.

(** ** [parseRepoBranch] *)

(** [parseRepoBranch(repo)] (impl.go, 258-278): the branch is the part after
    the [@] when the entry has exactly one; owner and name are the two sides
    of the [/] when what remains has exactly one.  A component that is not
    assigned keeps Go's zero value, the empty string. *)
Definition parseRepoBranch (repo : string) : string * string * string :=
  let '(repo, branch) :=
    match Split "@" repo with
    | [p0; p1] => (p0, p1)
    | _ => (repo, EmptyString)
    end in
  let '(owner, name) :=
    match Split "/" repo with
    | [p0; p1] => (p0, p1)
    | _ => (EmptyString, EmptyString)
    end in
  (owner, name, branch).

(** ** Data model *)

(** [drone.Build.Status]: the eight values the plugin compares against
    (the constants of package drone-go), and [StatusOther] for any other
    value the server may send. *)
Inductive Status :=
| StatusPending | StatusRunning | StatusPassing | StatusFailing
| StatusError | StatusKilled | StatusDeclined | StatusSkipped
| StatusOther (raw : string).

#[global] Instance Status_eq_dec : EqDecision Status.
Proof. solve_decision. Defined.

(** The fields of [drone.Build] the plugin reads. *)
Record Build := mkBuild {
  Number : Z;
  BuildStatus : Status;
  Source : string
}.

(** Go errors.  One constructor per [fmt.Errorf] of impl.go, carrying what
    the format string is applied to; [External] is an error handed over by a
    collaborator (the client, godotenv, strconv). *)
Inductive error :=
| External (msg : string)
| ErrNoToken
| ErrNoServer
| ErrWaitAndLastSuccessful
| ErrParseParams (cause : error)
| ErrParamFromEnv (k : string)
| ErrInvalidParam (p : string)
| ErrParseRepo (entry : string)
| ErrDeployNeedsSelector
| ErrDeployNumericOnly
| ErrTimedOut (entry : string)
| ErrBuildList (entry : string)
| ErrNoLastSuccessful (entry : string)
| ErrRequestedBuild (buildNumber : Z) (entry : string)
| ErrTriggerDeploy (entry : string) (cause : error)
| ErrLatestBuild (entry : string) (cause : error)
| ErrTriggerBuild (entry : string)
| ErrCouldNotCancel (buildNumber : Z)
| ErrBlockTimedOut (buildNumber : Z)
| ErrDidNotSucceed (buildNumber : Z) (status : Status).

#[global] Instance error_eq_dec : EqDecision error.
Proof. solve_decision. Defined.

(** The strings behind the constants, as drone-go declares them; they only
    show in the message of [ErrDidNotSucceed]. *)
Definition StatusString (s : Status) : string :=
  match s with
  | StatusPending => "pending" | StatusRunning => "running"
  | StatusPassing => "success" | StatusFailing => "failure"
  | StatusError => "error" | StatusKilled => "killed"
  | StatusDeclined => "declined" | StatusSkipped => "skipped"
  | StatusOther raw => raw
  end.

(** [err.Error()]: the message of each error, as the format strings of
    impl.go build it. *)
Fixpoint Error (e : error) : string :=
  match e with
  | External msg => msg
  | ErrNoToken => "you must provide your drone access token"
  | ErrNoServer => "you must provide your drone server"
  | ErrWaitAndLastSuccessful =>
      "only one of wait and last_successful can be true; choose one"
  | ErrParseParams cause => "unable to parse params: " +:+ Error cause
  | ErrParamFromEnv k => "param_from_env " +:+ k +:+ " is not set"
  | ErrInvalidParam p =>
      "invalid param '" +:+ p +:+ "'; must be KEY=VALUE or file path"
  | ErrParseRepo entry => "unable to parse repository name " +:+ entry
  | ErrDeployNeedsSelector =>
      "build no or branch must be mentioned for deploy, format repository@build/branch"
  | ErrDeployNumericOnly =>
      "for deploy build no must be numeric only " +:+
      " or for branch deploy last_successful should be true," +:+
      " format repository@build/branch"
  | ErrTimedOut entry => "timed out waiting on a build for " +:+ entry
  | ErrBuildList entry => "unable to get build list for " +:+ entry
  | ErrNoLastSuccessful entry =>
      "unable to get last successful build for " +:+ entry
  | ErrRequestedBuild n entry =>
      "unable to get requested build " +:+ Itoa n +:+ " for deploy for " +:+ entry
  | ErrTriggerDeploy entry cause =>
      "unable to trigger deploy for " +:+ entry +:+ " - err " +:+ Error cause
  | ErrLatestBuild entry cause =>
      "unable to get latest build for " +:+ entry +:+ ": " +:+ Error cause
  | ErrTriggerBuild entry => "unable to trigger build for " +:+ entry
  | ErrCouldNotCancel n => "could not cancel downstream job " +:+ Itoa n
  | ErrBlockTimedOut n => "timed out waiting for " +:+ Itoa n
  | ErrDidNotSucceed n st =>
      "build " +:+ Itoa n +:+ " did not succeed: " +:+ StatusString st
  end.

(** A Go [(value, error)] result where the value is used only when the error
    is nil. *)
Inductive result (A : Type) :=
| Ok (a : A)
| Err (e : error).
Arguments Ok {A} a.
Arguments Err {A} e.

(** [Settings] (impl.go, 28-43).  A [time.Duration] is a number of
    nanoseconds; the two durations only set the timers, which the event
    schedules below stand for. *)
Record Settings := mkSettings {
  Repos : list string;
  Server : string;
  Token : string;
  Wait : bool;
  Timeout : Z;
  LastSuccessful : bool;
  Params : list string;
  ParamsEnv : list string;
  Deploy : string;
  Block : bool;
  BlockTimeout : Z;
  server : string;
  params : gmap string string
}.

(** The plugin: its settings and the two fields of [p.pipeline.System] that
    [Validate] reads. *)
Record Plugin := mkPlugin {
  settings : Settings;
  SystemHost : string;
  SystemProto : string
}.

Definition set_server (v : string) (s : Settings) : Settings :=
  mkSettings (Repos s) (Server s) (Token s) (Wait s) (Timeout s)
    (LastSuccessful s) (Params s) (ParamsEnv s) (Deploy s) (Block s)
    (BlockTimeout s) v (params s).

Definition set_params (m : gmap string string) (s : Settings) : Settings :=
  mkSettings (Repos s) (Server s) (Token s) (Wait s) (Timeout s)
    (LastSuccessful s) (Params s) (ParamsEnv s) (Deploy s) (Block s)
    (BlockTimeout s) (server s) m.

Definition with_settings (s : Settings) (p : Plugin) : Plugin :=
  mkPlugin s (SystemHost p) (SystemProto p).

(** ** The process environment and the file system *)

(** [os.LookupEnv]. *)
Definition LookupEnv (env : gmap string string) (k : string) : option string :=
  env !! k.

(** What [os.Stat] and [godotenv.Read] find at a path: nothing, a file that
    godotenv cannot read or parse, or the key/value pairs of an env file. *)
Inductive File :=
| NotExist
| Unreadable (e : error)
| EnvFile (pairs : gmap string string).

(** ** Settings validation *)

(** [getServerWithDefaults] (impl.go, 331-341). *)
Definition getServerWithDefaults (server host protocol : string) : string :=
  if negb (isEmpty server) then server
  else if isEmpty host || isEmpty protocol then EmptyString
  else protocol +:+ "://" +:+ host.

(** [parseParams] (impl.go, 280-305), the loop from a given mapping on.  The
    inner [range] over the file's pairs writes every pair of the file over
    the mapping: the union that prefers the file. *)
Fixpoint parseParamsFrom (fs : string -> File) (paramList : list string)
    (params : gmap string string) : result (gmap string string) :=
  match paramList with
  | [] => Ok params
  | p :: rest =>
      match SplitN2 "=" p with
      | [k; v] => parseParamsFrom fs rest (<[k := v]> params)
      | parts =>
          let path := hd EmptyString parts in
          match fs path with
          | NotExist => Err (ErrInvalidParam path)
          | Unreadable e => Err e
          | EnvFile fileParams => parseParamsFrom fs rest (fileParams ∪ params)
          end
      end
  end.

Definition parseParams (fs : string -> File) (paramList : list string)
    : result (gmap string string) :=
  parseParamsFrom fs paramList ∅.

(** The loop over [ParamsEnv] (impl.go, 72-79): the mapping is written in
    place, so the keys before a missing one stay written. *)
Fixpoint paramsFromEnv (env : gmap string string) (keys : list string)
    (params : gmap string string) : gmap string string * option error :=
  match keys with
  | [] => (params, None)
  | k :: rest =>
      match LookupEnv env k with
      | None => (params, Some (ErrParamFromEnv k))
      | Some v => paramsFromEnv env rest (<[k := v]> params)
      end
  end.

(** [Validate] (impl.go, 46-82).  It returns the plugin as the method leaves
    it, and the error ([None] is nil).  A failed [parseParams] leaves the nil
    mapping, which reads as the empty one. *)
Definition Validate (env : gmap string string) (fs : string -> File)
    (p : Plugin) : Plugin * option error :=
  let s := settings p in
  if isEmpty (Token s) then (p, Some ErrNoToken)
  else
    let s := set_server
               (getServerWithDefaults (Server s) (SystemHost p) (SystemProto p)) s in
    if isEmpty (server s) then (with_settings s p, Some ErrNoServer)
    else if Wait s && LastSuccessful s
    then (with_settings s p, Some ErrWaitAndLastSuccessful)
    else
      match parseParams fs (Params s) with
      | Err e => (with_settings (set_params ∅ s) p, Some (ErrParseParams e))
      | Ok m =>
          let m :=
            match LookupEnv env "DRONE_BUILD_NUMBER" with
            | Some upstreamBuildNumber =>
                <["DRONE_UPSTREAM_BUILD_NUMBER" := upstreamBuildNumber]> m
            | None => m
            end in
          let '(m, err) := paramsFromEnv env (ParamsEnv s) m in
          (with_settings (set_params m s) p, err)
      end.

(** ** The remote CI client *)

(** The calls of [drone.Client] the plugin makes, with their arguments. *)
Inductive Call :=
| CBuildLast (owner name branch : string)
| CBuild (owner name : string) (number : Z)
| CBuildList (owner name : string)
| CBuildRestart (owner name : string) (number : Z) (args : gmap string string)
| CPromote (owner name : string) (number : Z) (target : string)
    (args : gmap string string)
| CBuildCancel (owner name : string) (number : Z).

(** A trigger is a restart or a promote. *)
Definition isTrigger (c : Call) : bool :=
  match c with
  | CBuildRestart _ _ _ _ | CPromote _ _ _ _ _ => true
  | _ => false
  end.

Definition isCancel (c : Call) : bool :=
  match c with
  | CBuildCancel _ _ _ => true
  | _ => false
  end.

(** One entry of the log: the call and whether it returned a nil error. *)
Record Invocation := mkInvocation {
  op : Call;
  succeeded : bool
}.

(** The triggers and the cancel requests of a log. *)
Definition triggers (log : list Invocation) : list Invocation :=
  List.filter (fun i => isTrigger (op i)) log.

Definition cancels (log : list Invocation) : list Invocation :=
  List.filter (fun i => isCancel (op i)) log.

(** [drone.Client], the part the plugin uses ([GetBuild] is the method
    [Build]).  The server state [W] is threaded through every call, so that a
    client may answer differently from one tick to the next. *)
Record Client (W : Type) := mkClient {
  BuildLast : string -> string -> string -> W -> result Build * W;
  GetBuild : string -> string -> Z -> W -> result Build * W;
  BuildList : string -> string -> W -> result (list Build) * W;
  BuildRestart :
    string -> string -> Z -> gmap string string -> W -> result Build * W;
  Promote :
    string -> string -> Z -> string -> gmap string string -> W ->
    result Build * W;
  BuildCancel : string -> string -> Z -> W -> option error * W
}.
Arguments BuildLast {W}.
Arguments GetBuild {W}.
Arguments BuildList {W}.
Arguments BuildRestart {W}.
Arguments Promote {W}.
Arguments BuildCancel {W}.

(** The state of a run: the server, the log of the calls made so far,
    oldest first, and the number of channels that the process has closed
    while they are still registered with [signal.Notify] (impl.go, 353-356:
    [blockUntilBuildIsFinished] closes its channel on return and never calls
    [signal.Stop]). *)
Record State (W : Type) := mkState {
  world : W;
  calls : list Invocation;
  closedSigs : nat
}.
Arguments mkState {W}.
Arguments world {W}.
Arguments calls {W}.
Arguments closedSigs {W}.

(** The state monad of a run. *)
Definition M (W A : Type) : Type := State W -> A * State W.

#[global] Instance M_ret {W} : MRet (M W) := fun A a st => (a, st).
#[global] Instance M_bind {W} : MBind (M W) :=
  fun A B f m st => let '(a, st') := m st in f a st'.

Definition isOk {A} (r : result A) : bool :=
  match r with Ok _ => true | Err _ => false end.

(** A client call that returns a value, logged. *)
Definition invoke {W A} (c : Call) (f : W -> result A * W) : M W (result A) :=
  fun st =>
    let '(r, w) := f (world st) in
    (r, mkState w (calls st ++ [mkInvocation c (isOk r)]) (closedSigs st)).

(** A client call that returns only an error, logged. *)
Definition invoke_ {W} (c : Call) (f : W -> option error * W)
    : M W (option error) :=
  fun st =>
    let '(r, w) := f (world st) in
    (r, mkState w (calls st ++ [mkInvocation c (bool_decide (r = None))])
          (closedSigs st)).

(** ** The two select loops *)

(** The channel on which a [select] of the trigger loop receives. *)
Inductive PollEvent := PollTimeout | PollTick.

(** The channel on which a [select] of the blocking loop receives. *)
Inductive BlockEvent := Signal | BlockTimeout_ | BlockTick.

(** The selects of one target: those of its trigger loop and, if it comes to
    blocking, those of the blocking loop.  A signal is an event of the
    blocking loop only: the trigger loop does not listen for signals, and a
    signal that arrives outside of blocking ends the process, not a
    select. *)
Record Schedule := mkSchedule {
  poll : list PollEvent;
  blocking : list BlockEvent
}.

(** What a function returns: nil, an error, or nothing: because its select
    is still waiting when the schedule ends, or because the process has died
    of a Go panic. *)
Inductive outcome :=
| Nil
| Failure (e : error)
| Parked
| Panicked.

(** How the body of one tick of the trigger loop ends: [continue] (or the
    end of the case) with the value of [waiting], [break I], [return err],
    inside a blocking select that is still waiting, or in a panic. *)
Inductive control :=
| Continue (waiting : bool)
| BreakI
| Return (e : error)
| Park
| Panic.

Definition isBusy (b : Build) : bool :=
  bool_decide (BuildStatus b = StatusRunning)
  || bool_decide (BuildStatus b = StatusPending).

(** The scans of impl.go, 146-152 and 216-222: the first build of the list
    on the branch with status passing; [None] is the nil pointer. *)
Definition firstPassing (branch : string) (builds : list Build) : option Build :=
  List.find
    (fun b => bool_decide (Source b = branch)
              && bool_decide (BuildStatus b = StatusPassing))
    builds.

(** A return of [blockUntilBuildIsFinished]: the deferred [close(sigs)]
    (impl.go, 356) closes the channel, which stays registered. *)
Definition returning {W} (o : outcome) : M W outcome :=
  fun st => (o, mkState (world st) (calls st) (S (closedSigs st))).

Section Orchestrator.
Context {W : Type}.
Variable client : Client W.
Variable p : Plugin.

(** [blockUntilBuildIsFinished] (impl.go, 343-395).  A signal is delivered
    to every channel registered for it: when an earlier call has left a
    closed channel registered, the delivery panics in the runtime (send on
    closed channel) and the process dies.  The runtime visits the registered
    channels in no fixed order; the closed one is taken here to be met
    first, so that the select of this call is not served and no cancel
    request goes out (met second, the panic ends the process while the
    select is being served).  Every return runs the deferred
    [close(sigs)]. *)
Fixpoint blockUntilBuildIsFinished (namespace name : string) (buildNumber : Z)
    (evs : list BlockEvent) : M W outcome :=
  match evs with
  | [] => mret Parked
  | Signal :: _ =>
      fun st =>
        if Nat.eqb (closedSigs st) 0 then
          (err ← invoke_ (CBuildCancel namespace name buildNumber)
                   (BuildCancel client namespace name buildNumber);
           match err with
           | Some _ => returning (Failure (ErrCouldNotCancel buildNumber))
           | None => returning Nil
           end) st
        else (Panicked, st)
  | BlockTimeout_ :: _ => returning (Failure (ErrBlockTimedOut buildNumber))
  | BlockTick :: evs' =>
      r ← invoke (CBuild namespace name buildNumber)
            (GetBuild client namespace name buildNumber);
      match r with
      | Err err => returning (Failure err)
      | Ok build =>
          match BuildStatus build with
          | StatusError | StatusKilled | StatusFailing | StatusDeclined
          | StatusSkipped =>
              returning (Failure (ErrDidNotSucceed buildNumber (BuildStatus build)))
          | StatusPassing => returning Nil
          | _ => blockUntilBuildIsFinished namespace name buildNumber evs'
          end
      end
  end.

(** After a trigger that succeeded (impl.go, 184-191 and 242-249): block if
    asked to, then [break I]. *)
Definition afterTrigger (owner name : string) (newBuild : Build)
    (bevs : list BlockEvent) : M W control :=
  if Block (settings p) then
    r ← blockUntilBuildIsFinished owner name (Number newBuild) bevs;
    match r with
    | Nil => mret BreakI
    | Failure err => mret (Return err)
    | Parked => mret Park
    | Panicked => mret Panic
    end
  else mret BreakI.

(** The plain-rebuild part of a tick (impl.go, 195-250). *)
Definition rebuildTick (entry owner name branch : string)
    (bevs : list BlockEvent) (waiting : bool) : M W control :=
  r ← invoke (CBuildLast owner name branch) (BuildLast client owner name branch);
  match r with
  | Err err =>
      if waiting then mret (Continue waiting)
      else mret (Return (ErrLatestBuild entry err))
  | Ok build =>
      if Wait (settings p) && negb waiting && isBusy build
      then mret (Continue true)
      else
        sel ← (if LastSuccessful (settings p)
                  && negb (bool_decide (BuildStatus build = StatusPassing))
               then
                 l ← invoke (CBuildList owner name) (BuildList client owner name);
                 match l with
                 | Err _ => mret (Err (ErrBuildList entry))
                 | Ok builds =>
                     match firstPassing branch builds with
                     | None => mret (Err (ErrNoLastSuccessful entry))
                     | Some b => mret (Ok b)
                     end
                 end
               else mret (Ok build));
        match sel with
        | Err err => mret (Return err)
        | Ok build =>
            if negb (isBusy build) || negb (Wait (settings p)) then
              nb ← invoke
                     (CBuildRestart owner name (Number build) (params (settings p)))
                     (BuildRestart client owner name (Number build)
                        (params (settings p)));
              match nb with
              | Err _ =>
                  if waiting then mret (Continue waiting)
                  else mret (Return (ErrTriggerBuild entry))
              | Ok newBuild => afterTrigger owner name newBuild bevs
              end
            else mret (Continue waiting)
        end
  end.

(** The body of [case <-tick] (impl.go, 135-251).  The deploy part ends the
    tick on every path but one: a reference build that is running or pending
    under [Wait] when [waiting] is already set passes both of its tests and
    control runs on into the plain-rebuild part. *)
Definition onTick (entry owner name branch : string) (bevs : list BlockEvent)
    (waiting : bool) : M W control :=
  if negb (isEmpty (Deploy (settings p))) then
    ref ← (if LastSuccessful (settings p) then
             l ← invoke (CBuildList owner name) (BuildList client owner name);
             match l with
             | Err _ => mret (Err (ErrBuildList entry))
             | Ok builds =>
                 match firstPassing branch builds with
                 | None => mret (Err (ErrNoLastSuccessful entry))
                 | Some b => mret (Ok b)
                 end
             end
           else
             let buildNumber := fst (Atoi branch) in
             r ← invoke (CBuild owner name buildNumber)
                   (GetBuild client owner name buildNumber);
             match r with
             | Err _ => mret (Err (ErrRequestedBuild buildNumber entry))
             | Ok b => mret (Ok b)
             end);
    match ref with
    | Err err => mret (Return err)
    | Ok build =>
        if Wait (settings p) && negb waiting && isBusy build
        then mret (Continue true)
        else if negb (isBusy build) || negb (Wait (settings p)) then
          nb ← invoke
                 (CPromote owner name (Number build) (Deploy (settings p))
                    (params (settings p)))
                 (Promote client owner name (Number build) (Deploy (settings p))
                    (params (settings p)));
          match nb with
          | Err err =>
              if waiting then mret (Continue waiting)
              else mret (Return (ErrTriggerDeploy entry err))
          | Ok newBuild => afterTrigger owner name newBuild bevs
          end
        else rebuildTick entry owner name branch bevs waiting
    end
  else rebuildTick entry owner name branch bevs waiting.

(** The loop labelled [I] (impl.go, 128-252). *)
Fixpoint pollLoop (entry owner name branch : string) (bevs : list BlockEvent)
    (evs : list PollEvent) (waiting : bool) : M W outcome :=
  match evs with
  | [] => mret Parked
  | PollTimeout :: _ => mret (Failure (ErrTimedOut entry))
  | PollTick :: evs' =>
      c ← onTick entry owner name branch bevs waiting;
      match c with
      | Continue waiting' => pollLoop entry owner name branch bevs evs' waiting'
      | BreakI => mret Nil
      | Return err => mret (Failure err)
      | Park => mret Parked
      | Panic => mret Panicked
      end
  end.

(** Where the loop [I] stands after selects that were all ticks ending in
    [continue]: the value of [waiting] and the state with which it is back
    at its select; [None] once the loop has been left. *)
Fixpoint pollAt (entry owner name branch : string) (bevs : list BlockEvent)
    (evs : list PollEvent) (waiting : bool) (st : State W)
    : option (bool * State W) :=
  match evs with
  | [] => Some (waiting, st)
  | PollTimeout :: _ => None
  | PollTick :: evs' =>
      match onTick entry owner name branch bevs waiting st with
      | (Continue waiting', st') =>
          pollAt entry owner name branch bevs evs' waiting' st'
      | _ => None
      end
  end.

(** The body of the loop over the entries (impl.go, 100-252); [Nil] is the
    [break I] that goes on to the next entry. *)
Definition executeEntry (entry : string) (sched : Schedule) : M W outcome :=
  let '(owner, name, branch) := parseRepoBranch entry in
  if isEmpty owner || isEmpty name then mret (Failure (ErrParseRepo entry))
  else if negb (isEmpty (Deploy (settings p))) && isEmpty branch
  then mret (Failure ErrDeployNeedsSelector)
  else if negb (isEmpty (Deploy (settings p))) && negb (snd (Atoi branch))
          && negb (LastSuccessful (settings p))
  then mret (Failure ErrDeployNumericOnly)
  else pollLoop entry owner name branch (blocking sched) (poll sched) false.

(** The loop over the entries: the first error ends the run. *)
Fixpoint executeRepos (entries : list string) (scheds : list Schedule)
    : M W outcome :=
  match entries with
  | [] => mret Nil
  | entry :: rest =>
      r ← executeEntry entry (hd (mkSchedule [] []) scheds);
      match r with
      | Nil => executeRepos rest (tl scheds)
      | other => mret other
      end
  end.

(** [Execute] (impl.go, 87-256), given the selects of each target. *)
Definition Execute (scheds : list Schedule) : M W outcome :=
  executeRepos (Repos (settings p)) scheds.

End Orchestrator.

(** ** A scripted client, for running the code on concrete inputs *)

(** The replies a scripted server will give, in order. *)
Inductive Reply :=
| RBuild (r : result Build)
| RBuilds (r : result (list Build))
| RCancel (e : option error).

Definition unexpected : error := External "unexpected call".

Definition replyBuild (w : list Reply) : result Build * list Reply :=
  match w with
  | RBuild r :: w' => (r, w')
  | _ => (Err unexpected, w)
  end.

Definition replyBuilds (w : list Reply) : result (list Build) * list Reply :=
  match w with
  | RBuilds r :: w' => (r, w')
  | _ => (Err unexpected, w)
  end.

Definition replyCancel (w : list Reply) : option error * list Reply :=
  match w with
  | RCancel r :: w' => (r, w')
  | _ => (Some unexpected, w)
  end.

(** A client that answers each call with the next reply of the script. *)
Definition scripted : Client (list Reply) :=
  mkClient (list Reply)
    (fun _ _ _ => replyBuild)
    (fun _ _ _ => replyBuild)
    (fun _ _ => replyBuilds)
    (fun _ _ _ _ => replyBuild)
    (fun _ _ _ _ _ => replyBuild)
    (fun _ _ _ => replyCancel).

Definition start {W} (w : W) : State W := mkState w [] 0.

(** Settings as the command line leaves them when only these are given. *)
Definition basicSettings (repos : list string) (wait lastSuccessful : bool)
    (deploy : string) (block : bool) : Settings :=
  mkSettings repos "https://ci.example.org" "secret" wait 60000000000
    lastSuccessful [] [] deploy block 3600000000000
    "https://ci.example.org" ∅.

Definition basicPlugin (repos : list string) (wait lastSuccessful : bool)
    (deploy : string) (block : bool) : Plugin :=
  mkPlugin (basicSettings repos wait lastSuccessful deploy block) "" "".

Definition running7 : Build := mkBuild 7 StatusRunning "main".
Definition passing7 : Build := mkBuild 7 StatusPassing "main".
Definition failing7 : Build := mkBuild 7 StatusFailing "main".
Definition pending8 : Build := mkBuild 8 StatusPending "main".
Definition running8 : Build := mkBuild 8 StatusRunning "main".
Definition badGateway : error := External "502 Bad Gateway".

Definition rebuildWait : Plugin := basicPlugin ["octo/app@main"] true false "" false.
Definition rebuildLast : Plugin :=
  basicPlugin ["octo/app@main"; "octo/lib"] false true "" false.
Definition rebuildBlock : Plugin :=
  basicPlugin ["octo/app@main"; "octo/lib"] false false "" true.
Definition rebuildWaitBlock : Plugin :=
  basicPlugin ["octo/app@main"; "octo/lib"] true false "" true.
Definition deployWait : Plugin :=
  basicPlugin ["octo/app@42"] true false "production" false.
Definition deployLast : Plugin :=
  basicPlugin ["octo/app@main"] false true "production" false.

(** The state of a run that has just restarted build 7 as build 8. *)
Definition triggered8 (w : list Reply) : State (list Reply) :=
  mkState w
    [mkInvocation (CBuildLast "octo" "app" "main") true;
     mkInvocation (CBuildRestart "octo" "app" 7 ∅) true] 0.

(** The state of a run of [rebuildBlock] that has restarted its first target
    as build 8, has seen build 8 pass, and has just restarted the second
    target as build 4: one blocking call has returned. *)
Definition triggered4 (w : list Reply) : State (list Reply) :=
  mkState w
    [mkInvocation (CBuildLast "octo" "app" "main") true;
     mkInvocation (CBuildRestart "octo" "app" 7 ∅) true;
     mkInvocation (CBuild "octo" "app" 8) true;
     mkInvocation (CBuildLast "octo" "lib" "") true;
     mkInvocation (CBuildRestart "octo" "lib" 3 ∅) true] 1.

(** A run of [Validate] with a literal and a file that both give the key. *)
Definition upstreamPlugin : Plugin :=
  mkPlugin
    (mkSettings ["octo/app"] "https://ci.example.org" "secret" false
       60000000000 false ["DRONE_UPSTREAM_BUILD_NUMBER=5"; "extra.env"] []
       "" false 3600000000000 "" ∅)
    "" "".

Definition upstreamEnv : gmap string string := {[ "DRONE_BUILD_NUMBER" := "9" ]}.

Definition upstreamFiles (path : string) : File :=
  if String.eqb path "extra.env"
  then EnvFile {[ "DRONE_UPSTREAM_BUILD_NUMBER" := "6" ]}
  else NotExist.

(** ** Parameter echo *)

(** One line of [logParams] (impl.go, 311-327): the inner loop looks the key
    up in [paramsEnv], and a key found there is printed without its value. *)
Definition logLine (paramsEnv : list string) (kv : string * string) : string :=
  let fromEnv := existsb (String.eqb (fst kv)) paramsEnv in
  let v := if fromEnv then "[from-environment]" else snd kv in
  "  - " +:+ fst kv +:+ ": " +:+ v.

(** [logParams] (impl.go, 307-329): the lines it prints.  Go leaves the
    order of a [range] over a map unspecified; the lines come here in the
    order of [map_to_list], and what is proved of them holds for any order. *)
Definition logParams (params : gmap string string) (paramsEnv : list string)
    : list string :=
  if (0 <? size params)%nat
  then "  with params:" :: List.map (logLine paramsEnv) (map_to_list params)
  else [].

(** Has the function returned to its caller? *)
Definition returned (o : outcome) : bool :=
  match o with
  | Nil | Failure _ => true
  | Parked | Panicked => false
  end.

(** ** Counting triggers *)

(** The triggers of a log that returned a build. *)
Definition fired (log : list Invocation) : list Invocation :=
  List.filter (fun i => isTrigger (op i) && succeeded i) log.

(** The repository a call is made on. *)
Definition repoOf (c : Call) : string * string :=
  match c with
  | CBuildLast owner name _ | CBuild owner name _ | CBuildList owner name
  | CBuildRestart owner name _ _ | CPromote owner name _ _ _
  | CBuildCancel owner name _ => (owner, name)
  end.

(** The repository an entry of [Repos] names (impl.go, 102). *)
Definition targetOf (entry : string) : string * string :=
  fst (parseRepoBranch entry).

(** The repositories of the triggers of a log that returned a build. *)
Definition firedRepos (log : list Invocation) : list (string * string) :=
  List.map (fun i => repoOf (op i)) (fired log).

(** The calls of the plain-rebuild part of a tick, and the deploy trigger. *)
Definition isRebuildCall (c : Call) : bool :=
  match c with
  | CBuildLast _ _ _ | CBuildRestart _ _ _ _ => true
  | _ => false
  end.

Definition isPromote (c : Call) : bool :=
  match c with
  | CPromote _ _ _ _ _ => true
  | _ => false
  end.

(** A server on which the latest build never finishes: every fetch of the
    latest build returns build 7, running; the state counts the fetches. *)
Definition alwaysRunning : Client nat :=
  mkClient nat
    (fun _ _ _ n => (Ok (mkBuild 7 StatusRunning "main"), S n))
    (fun _ _ _ n => (Err (External "unexpected call"), n))
    (fun _ _ n => (Err (External "unexpected call"), n))
    (fun _ _ _ _ n => (Err (External "unexpected call"), n))
    (fun _ _ _ _ _ n => (Err (External "unexpected call"), n))
    (fun _ _ _ n => (Some (External "unexpected call"), n)).

(** A plugin whose parameters come from two literals, a file and the
    environment. *)
Definition paramsPlugin : Plugin :=
  mkPlugin
    (mkSettings ["octo/app"] "" "secret" false 60000000000 false
       ["A=1"; "extra.env"; "B=x=y"] ["API_KEY"]
       "" false 3600000000000 "" ∅)
    "ci.example.org" "https".

(** The same with two environment keys that are not set. *)
Definition unsetKeyPlugin : Plugin :=
  mkPlugin
    (mkSettings ["octo/app"] "" "secret" false 60000000000 false
       ["A=1"] ["API_KEY"; "MISSING"; "ALSO_MISSING"]
       "" false 3600000000000 "" ∅)
    "ci.example.org" "https".

Definition paramsEnvironment : gmap string string :=
  {[ "API_KEY" := "hunter2"; "DRONE_BUILD_NUMBER" := "9" ]}.

Definition paramsFiles (path : string) : File :=
  if String.eqb path "extra.env"
  then EnvFile {[ "A" := "2"; "C" := "3" ]}
  else NotExist.

(** ** Proof automation for runs *)

(** Reduce the plumbing of a run, and nothing of the client or the code. *)
Ltac reduce_run :=
  cbn [negb andb orb world calls closedSigs fst snd isOk app start].

Ltac unfold_run :=
  unfold mbind, M_bind, mret, M_ret, invoke, invoke_, returning; reduce_run.

(** Case analysis on every client reply and every test of a tick. *)
Ltac split_run :=
  repeat (reduce_run;
    match goal with
    | |- context [BuildLast ?c ?o ?n ?b ?w] =>
        destruct (BuildLast c o n b w) as [[?|?] ?]
    | |- context [GetBuild ?c ?o ?n ?k ?w] =>
        destruct (GetBuild c o n k w) as [[?|?] ?]
    | |- context [BuildList ?c ?o ?n ?w] =>
        destruct (BuildList c o n w) as [[?|?] ?]
    | |- context [BuildRestart ?c ?o ?n ?k ?a ?w] =>
        destruct (BuildRestart c o n k a w) as [[?|?] ?]
    | |- context [Promote ?c ?o ?n ?k ?t ?a ?w] =>
        destruct (Promote c o n k t a w) as [[?|?] ?]
    | |- context [match firstPassing ?b ?l with _ => _ end] =>
        destruct (firstPassing b l)
    | |- context [if ?b then _ else _] => destruct b
    end).

(** The same, with the tests that a flag has already settled simplified
    away first. *)
Ltac case_run :=
  repeat (reduce_run;
    rewrite ?orb_true_r, ?orb_false_r, ?andb_true_r, ?andb_false_r;
    reduce_run;
    match goal with
    | |- context [BuildLast ?c ?o ?n ?b ?w] =>
        destruct (BuildLast c o n b w) as [[?|?] ?]
    | |- context [GetBuild ?c ?o ?n ?k ?w] =>
        destruct (GetBuild c o n k w) as [[?|?] ?]
    | |- context [BuildList ?c ?o ?n ?w] =>
        destruct (BuildList c o n w) as [[?|?] ?]
    | |- context [BuildRestart ?c ?o ?n ?k ?a ?w] =>
        destruct (BuildRestart c o n k a w) as [[?|?] ?]
    | |- context [Promote ?c ?o ?n ?k ?t ?a ?w] =>
        destruct (Promote c o n k t a w) as [[?|?] ?]
    | |- context [match firstPassing ?b ?l with _ => _ end] =>
        destruct (firstPassing b l) eqn:?
    | |- context [if ?b then _ else _] => destruct b eqn:?
    end).

(** * Properties *)

(** ** Target entries *)

Example parse_plain : parseRepoBranch "octo/app" = ("octo", "app", "").
Proof. reflexivity. Qed.

Example parse_branch :
  parseRepoBranch "octo/app@main" = ("octo", "app", "main").
Proof. reflexivity. Qed.

Example parse_number :
  parseRepoBranch "octo/app@123" = ("octo", "app", "123").
Proof. reflexivity. Qed.

Example atoi_samples :
  Atoi "42" = (42, true) /\ Atoi "main" = (0, false) /\ Atoi "-7" = (-7, true)
  /\ Atoi "+" = (0, false) /\ Itoa 42 = "42".
Proof. repeat split. Qed.

(** Without the separator, [Split] returns the string alone. *)
Lemma Split_absent sep s : occurs sep s = false -> Split sep s = [s].
Proof.
  induction s as [|c s IH]; simpl; [reflexivity|].
  destruct (Ascii.eqb c sep); [discriminate|].
  intros H. rewrite (IH H). reflexivity.
Qed.

(** [Split] cuts at the first separator. *)
Lemma Split_first sep a b :
  occurs sep a = false ->
  Split sep (a +:+ String sep b) = a :: Split sep b.
Proof.
  induction a as [|c a IH]; simpl.
  - intros _. rewrite Ascii.eqb_refl. reflexivity.
  - destruct (Ascii.eqb c sep); [discriminate|].
    intros H. rewrite (IH H). reflexivity.
Qed.

Lemma occurs_app c a b : occurs c (a +:+ b) = occurs c a || occurs c b.
Proof.
  induction a as [|d a IH]; simpl; [reflexivity|].
  destruct (Ascii.eqb d c); [reflexivity|exact IH].
Qed.

Lemma append_assoc (a b c : string) : a +:+ b +:+ c = (a +:+ b) +:+ c.
Proof.
  induction a as [|d a IH]; [reflexivity|].
  change (String d (a +:+ b +:+ c) = String d ((a +:+ b) +:+ c)).
  rewrite IH. reflexivity.
Qed.

(** An entry without [/] has no owner and no name, whatever its [@]s. *)
Lemma parseRepoBranch_no_slash entry :
  occurs "/" entry = false ->
  exists branch, parseRepoBranch entry = (EmptyString, EmptyString, branch).
Proof.
  intros H. unfold parseRepoBranch.
  destruct (Split "@" entry) as [|p0 [|p1 [|p2 ps]]] eqn:E;
    try (rewrite (Split_absent _ _ H); eexists; reflexivity).
  assert (Hp0 : occurs "/" p0 = false).
  { revert p0 p1 E.
    induction entry as [|c s IH]; simpl; intros p0 p1 E; [discriminate|].
    simpl in H. destruct (Ascii.eqb c "/") eqn:Ec; [discriminate|].
    destruct (Ascii.eqb c "@").
    - injection E as <- _. reflexivity.
    - destruct (Split "@" s) as [|q0 [|q1 [|q2 qs]]] eqn:Es; try discriminate.
      injection E as <- <-. simpl. rewrite Ec. exact (IH H q0 q1 eq_refl). }
  rewrite (Split_absent _ _ Hp0). eexists; reflexivity.
Qed.

(** C8 (as amended).  For an owner and a name without [/] and [@] and a
    selector without [@], ["owner/name"] parses to the triple with the empty
    selector and ["owner/name@selector"] (a branch or a number alike) to the
    triple with that selector; and every entry without a [/] is rejected,
    before any client call, with the parse error that names the entry. *)
Theorem parseRepoBranch_entries (owner name sel : string) :
  occurs "/" owner = false -> occurs "@" owner = false ->
  occurs "/" name = false -> occurs "@" name = false ->
  occurs "@" sel = false ->
  parseRepoBranch (owner +:+ "/" +:+ name) = (owner, name, EmptyString)
  /\ parseRepoBranch (owner +:+ "/" +:+ name +:+ "@" +:+ sel) = (owner, name, sel)
  /\ (forall W (client : Client W) p entry sched (st : State W),
        occurs "/" entry = false ->
        executeEntry client p entry sched st = (Failure (ErrParseRepo entry), st)
        /\ Error (ErrParseRepo entry) = "unable to parse repository name " +:+ entry).
Proof.
  intros Hso Hao Hsn Han Has.
  assert (Hrepo : Split "/" (owner +:+ "/" +:+ name) = [owner; name]).
  { change (owner +:+ "/" +:+ name) with (owner +:+ String "/" name).
    rewrite (Split_first _ _ _ Hso), (Split_absent _ _ Hsn). reflexivity. }
  assert (Hat : occurs "@" (owner +:+ "/" +:+ name) = false).
  { change (owner +:+ "/" +:+ name) with (owner +:+ String "/" name).
    rewrite occurs_app, Hao. simpl. exact Han. }
  split; [|split].
  - unfold parseRepoBranch. rewrite (Split_absent _ _ Hat), Hrepo. reflexivity.
  - unfold parseRepoBranch.
    replace (owner +:+ "/" +:+ name +:+ "@" +:+ sel)
      with ((owner +:+ "/" +:+ name) +:+ String "@" sel).
    + rewrite (Split_first _ _ _ Hat), (Split_absent _ _ Has), Hrepo. reflexivity.
    + symmetry. apply (append_assoc owner (String "/" name) (String "@" sel)).
  - intros W client p entry sched st H. split; [|reflexivity].
    unfold executeEntry.
    destruct (parseRepoBranch_no_slash entry H) as [branch ->]. reflexivity.
Qed.

Lemma parseRepoBranch_entries_witness :
  parseRepoBranch "octo/app" = ("octo", "app", "")
  /\ parseRepoBranch "octo/app@main" = ("octo", "app", "main")
  /\ executeEntry scripted (basicPlugin ["octo-app@main"] false false "" false)
       "octo-app@main" (mkSchedule [PollTick] []) (start [])
     = (Failure (ErrParseRepo "octo-app@main"), start []).
Proof.
  destruct (parseRepoBranch_entries "octo" "app" "main"
              eq_refl eq_refl eq_refl eq_refl eq_refl) as (H1 & H2 & H3).
  split; [exact H1|]. split; [exact H2|].
  exact (proj1 (H3 _ scripted _ "octo-app@main" _ (start []) eq_refl)).
Defined.

(** C8, as stated, fails: an entry with two [@] is not rejected.  It is not
    cut at an [@] at all: the selector is empty, the name keeps both [@]s,
    and the run goes on to restart the latest build of that repository. *)
Lemma multiple_at_not_rejected :
  parseRepoBranch "o/n@a@b" = ("o", "n@a@b", "")
  /\ executeEntry scripted (basicPlugin ["o/n@a@b"] false false "" false)
       "o/n@a@b" (mkSchedule [PollTick] [])
       (start [RBuild (Ok (mkBuild 7 StatusPassing "main"));
               RBuild (Ok (mkBuild 8 StatusPending "main"))])
     = (Nil,
        mkState []
          [mkInvocation (CBuildLast "o" "n@a@b" "") true;
           mkInvocation (CBuildRestart "o" "n@a@b" 7 ∅) true] 0)
  /\ Nil <> Failure (ErrParseRepo "o/n@a@b").
Proof. split; [reflexivity|]. split; [reflexivity|discriminate]. Qed.

(** ** Settings validation *)

Lemma paramsFromEnv_error env keys m m' e :
  paramsFromEnv env keys m = (m', Some e) -> exists k, e = ErrParamFromEnv k.
Proof.
  revert m. induction keys as [|k keys IH]; simpl; intros m H; [discriminate|].
  destruct (LookupEnv env k); [exact (IH _ H)|].
  injection H as _ <-. eexists; reflexivity.
Qed.

Lemma paramsFromEnv_all_set env keys m :
  (forall k, k ∈ keys -> is_Some (env !! k)) ->
  snd (paramsFromEnv env keys m) = None.
Proof.
  revert m. induction keys as [|k keys IH]; simpl; intros m H; [reflexivity|].
  unfold LookupEnv. destruct (H k) as [v ->]; [left|].
  apply IH. intros k' Hk'. apply H. right. exact Hk'.
Qed.

(** After the loop over [ParamsEnv], a key of the list holds its environment
    value and every other key what it held before. *)
Lemma paramsFromEnv_lookup env keys (m m' : gmap string string) k :
  paramsFromEnv env keys m = (m', None) ->
  m' !! k = if bool_decide (k ∈ keys) then env !! k else m !! k.
Proof.
  revert m. induction keys as [|k0 keys IH]; intros m H; simpl in H.
  - injection H as <-. case_bool_decide as Hin; [|reflexivity].
    apply elem_of_nil in Hin. contradiction.
  - unfold LookupEnv in H. destruct (env !! k0) as [v|] eqn:E; [|discriminate].
    rewrite (IH _ H). destruct (decide (k = k0)) as [->|Hne].
    + rewrite lookup_insert_eq.
      rewrite (bool_decide_eq_true_2 (k0 ∈ k0 :: keys)) by left.
      rewrite E. case_bool_decide; reflexivity.
    + rewrite lookup_insert_ne by congruence.
      assert (bool_decide (k ∈ k0 :: keys) = bool_decide (k ∈ keys)) as ->;
        [|reflexivity].
      apply bool_decide_ext. rewrite elem_of_cons. tauto.
Qed.

(** C9.  With [Wait] and [LastSuccessful] both set, [Validate] returns an
    error whatever the other settings, the environment and the files are
    (the error of this check once token and server are there).  With at most
    one of them set, the error of this check is never returned, and with a
    token, a server, parameters that parse and environment keys that are set,
    [Validate] returns nil. *)
Theorem Validate_wait_and_lastSuccessful env fs (p : Plugin) :
  let s := settings p in
  let srv := getServerWithDefaults (Server s) (SystemHost p) (SystemProto p) in
  (Wait s && LastSuccessful s = true ->
     exists e, snd (Validate env fs p) = Some e
       /\ (isEmpty (Token s) = false -> isEmpty srv = false ->
           e = ErrWaitAndLastSuccessful))
  /\ (Wait s && LastSuccessful s = false ->
        snd (Validate env fs p) <> Some ErrWaitAndLastSuccessful
        /\ (isEmpty (Token s) = false -> isEmpty srv = false ->
            isOk (parseParams fs (Params s)) = true ->
            (forall k, k ∈ ParamsEnv s -> is_Some (env !! k)) ->
            snd (Validate env fs p) = None)).
Proof.
  intros s srv. unfold Validate. fold s. simpl. fold srv.
  destruct (isEmpty (Token s)) eqn:Et; simpl.
  { split; intros _; [eexists; split; [reflexivity|discriminate]|].
    split; [discriminate|discriminate]. }
  destruct (isEmpty srv) eqn:Es; simpl.
  { split; intros _; [eexists; split; [reflexivity|discriminate]|].
    split; [discriminate|discriminate]. }
  destruct (Wait s && LastSuccessful s) eqn:Ef; simpl.
  { split; [intros _; eexists; split; reflexivity|discriminate]. }
  split; [discriminate|]. intros _.
  destruct (parseParams fs (Params s)) as [m|e] eqn:Ep; simpl.
  - set (m0 := match LookupEnv env "DRONE_BUILD_NUMBER" with
               | Some v => <["DRONE_UPSTREAM_BUILD_NUMBER" := v]> m
               | None => m
               end).
    destruct (paramsFromEnv env (ParamsEnv s) m0) as [m' err] eqn:Ee; simpl.
    split.
    + destruct err as [e|]; [|discriminate].
      destruct (paramsFromEnv_error _ _ _ _ _ Ee) as [k ->]. discriminate.
    + intros _ _ _ Hset.
      pose proof (paramsFromEnv_all_set env (ParamsEnv s) m0 Hset) as Hn.
      rewrite Ee in Hn. exact Hn.
  - split; [discriminate|]. intros _ _ Hok. discriminate.
Qed.

Lemma Validate_wait_and_lastSuccessful_witness :
  snd (Validate ∅ (fun _ => NotExist)
         (basicPlugin ["octo/app"] true true "" false))
  = Some ErrWaitAndLastSuccessful
  /\ snd (Validate ∅ (fun _ => NotExist)
            (basicPlugin ["octo/app"] true false "" false))
     = None.
Proof.
  split.
  - destruct (proj1 (Validate_wait_and_lastSuccessful ∅ (fun _ => NotExist)
                       (basicPlugin ["octo/app"] true true "" false)) eq_refl)
      as (e & He & Hc).
    rewrite He. f_equal. apply Hc; reflexivity.
  - apply (proj2 (Validate_wait_and_lastSuccessful ∅ (fun _ => NotExist)
                    (basicPlugin ["octo/app"] true false "" false)) eq_refl);
      try reflexivity.
    intros k Hk. apply elem_of_nil in Hk. contradiction.
Defined.

(** C3 (as amended).  When [Validate] succeeds and [DRONE_BUILD_NUMBER] is
    set, its value is written under [DRONE_UPSTREAM_BUILD_NUMBER] after the
    literal and file-sourced parameters and before the environment-sourced
    ones: the final mapping holds the upstream build number under that key
    whatever the literals and files say, unless the key is itself listed in
    [ParamsEnv], and then it holds that variable's environment value. *)
Theorem Validate_upstream_build_number env fs (p p' : Plugin) (v : string) :
  Validate env fs p = (p', None) ->
  env !! "DRONE_BUILD_NUMBER" = Some v ->
  params (settings p') !! "DRONE_UPSTREAM_BUILD_NUMBER"
  = if bool_decide ("DRONE_UPSTREAM_BUILD_NUMBER" ∈ ParamsEnv (settings p))
    then env !! "DRONE_UPSTREAM_BUILD_NUMBER"
    else Some v.
Proof.
  unfold Validate. intros H Hv.
  destruct (isEmpty (Token (settings p))); [discriminate|].
  simpl in H.
  destruct (isEmpty _); [discriminate|].
  destruct (Wait (settings p) && LastSuccessful (settings p)); [discriminate|].
  destruct (parseParams fs (Params (settings p))) as [m|e]; [|discriminate].
  unfold LookupEnv in H at 1. rewrite Hv in H.
  destruct (paramsFromEnv env (ParamsEnv (settings p))
              (<["DRONE_UPSTREAM_BUILD_NUMBER" := v]> m)) as [m' err] eqn:Ee.
  injection H as <- ->. simpl.
  rewrite (paramsFromEnv_lookup _ _ _ _ "DRONE_UPSTREAM_BUILD_NUMBER" Ee).
  rewrite lookup_insert_eq. reflexivity.
Qed.

Lemma Validate_upstream_build_number_witness :
  snd (Validate upstreamEnv upstreamFiles upstreamPlugin) = None
  /\ params (settings (fst (Validate upstreamEnv upstreamFiles upstreamPlugin)))
       !! "DRONE_UPSTREAM_BUILD_NUMBER" = Some "9".
Proof.
  split; [reflexivity|].
  exact (Validate_upstream_build_number upstreamEnv upstreamFiles upstreamPlugin
           (fst (Validate upstreamEnv upstreamFiles upstreamPlugin)) "9"
           eq_refl eq_refl).
Defined.

(** C3, as stated, fails: the literal [DRONE_UPSTREAM_BUILD_NUMBER=5] and the
    file that gives 6 do not override the injected value; the final mapping
    holds the upstream build number 9. *)
Lemma upstream_build_number_overrides_literal :
  parseParams upstreamFiles (Params (settings upstreamPlugin))
  = Ok {[ "DRONE_UPSTREAM_BUILD_NUMBER" := "6" ]}
  /\ snd (Validate upstreamEnv upstreamFiles upstreamPlugin) = None
  /\ params (settings (fst (Validate upstreamEnv upstreamFiles upstreamPlugin)))
       !! "DRONE_UPSTREAM_BUILD_NUMBER" = Some "9"
  /\ Some "9" <> Some "5" /\ Some "9" <> Some "6".
Proof. repeat split; (reflexivity || discriminate). Qed.

(** ** The blocking loop *)

Section BlockingFacts.
Context {W : Type}.
Variable client : Client W.
Variable p : Plugin.
Variables namespace name : string.
Variable buildNumber : Z.

Local Abbreviation block := (blockUntilBuildIsFinished client namespace name buildNumber).

Local Abbreviation statusFetch := (mkInvocation (CBuild namespace name buildNumber)).

(** While the loop has not returned, it has made one successful status fetch
    per select, and nothing else. *)
Lemma block_parked_log evs (st st' : State W) :
  block evs st = (Parked, st') ->
  calls st' = calls st ++ replicate (length evs) (statusFetch true).
Proof.
  revert st. induction evs as [|ev evs IH]; intros st H; simpl in H.
  - injection H as <-. simpl. rewrite app_nil_r. reflexivity.
  - destruct ev; revert H; unfold_run.
    + destruct (Nat.eqb (closedSigs st) 0); [|discriminate].
      destruct (BuildCancel client namespace name buildNumber (world st)) as [[e|] w];
        discriminate.
    + discriminate.
    + destruct (GetBuild client namespace name buildNumber (world st)) as [[b|e] w];
        [|discriminate].
      intros H. simpl.
      destruct (BuildStatus b); try discriminate;
        rewrite (IH _ H); simpl; rewrite <- app_assoc; reflexivity.
Qed.

(** And its channel is still open: no channel has been closed. *)
Lemma block_parked_sigs evs (st st' : State W) :
  block evs st = (Parked, st') -> closedSigs st' = closedSigs st.
Proof.
  revert st. induction evs as [|ev evs IH]; intros st H; simpl in H.
  - injection H as <-. reflexivity.
  - destruct ev; revert H; unfold_run.
    + destruct (Nat.eqb (closedSigs st) 0); [|discriminate].
      destruct (BuildCancel client namespace name buildNumber (world st)) as [[e|] w];
        discriminate.
    + discriminate.
    + destruct (GetBuild client namespace name buildNumber (world st)) as [[b|e] w];
        [|discriminate].
      intros H. destruct (BuildStatus b); try discriminate; exact (IH _ H).
Qed.

(** A loop that has not returned goes on with the selects that follow. *)
Lemma block_app pre evs (st st' : State W) :
  block pre st = (Parked, st') -> block (pre ++ evs) st = block evs st'.
Proof.
  revert st. induction pre as [|ev pre IH]; intros st H; simpl in H.
  - injection H as <-. reflexivity.
  - destruct ev; revert H; simpl; unfold_run.
    + destruct (Nat.eqb (closedSigs st) 0); [|discriminate].
      destruct (BuildCancel client namespace name buildNumber (world st)) as [[e|] w];
        discriminate.
    + discriminate.
    + destruct (GetBuild client namespace name buildNumber (world st)) as [[b|e] w];
        [|discriminate].
      destruct (BuildStatus b); try discriminate; apply IH.
Qed.

(** The blocking loop only appends to the log, and never a trigger. *)
Lemma block_log_no_trigger evs (st : State W) :
  exists l, calls (snd (block evs st)) = calls st ++ l
            /\ Forall (fun i => isTrigger (op i) = false) l.
Proof.
  revert st. induction evs as [|ev evs IH]; intros st; simpl.
  - exists []. rewrite app_nil_r. split; [reflexivity|constructor].
  - destruct ev; unfold_run.
    + destruct (Nat.eqb (closedSigs st) 0);
        [|exists []; simpl; rewrite app_nil_r; split; [reflexivity|constructor]].
      destruct (BuildCancel client namespace name buildNumber (world st)) as [[e|] w];
        simpl; eexists; (split; [reflexivity|]); repeat constructor.
    + exists []. rewrite app_nil_r. split; [reflexivity|constructor].
    + destruct (GetBuild client namespace name buildNumber (world st)) as [[b|e] w];
        simpl; [|eexists; (split; [reflexivity|]); repeat constructor].
      destruct (BuildStatus b);
        try (eexists; (split; [reflexivity|]); repeat constructor);
        match goal with
        | |- context [block evs ?s] =>
            destruct (IH s) as (l & -> & Hl); simpl;
            rewrite <- app_assoc; eexists; (split; [reflexivity|]);
            constructor; [reflexivity|exact Hl]
        end.
Qed.

(** A loop that has not returned to its caller, in a select or in a panic,
    has made successful status fetches and nothing else. *)
Lemma block_stuck_log evs (st : State W) :
  returned (fst (block evs st)) = false ->
  exists k, calls (snd (block evs st))
            = calls st ++ replicate k (statusFetch true).
Proof.
  revert st. induction evs as [|ev evs IH]; intros st; simpl.
  - intros _. exists 0%nat. simpl. rewrite app_nil_r. reflexivity.
  - destruct ev; unfold_run.
    + destruct (Nat.eqb (closedSigs st) 0).
      * destruct (BuildCancel client namespace name buildNumber (world st))
          as [[e|] w]; discriminate.
      * intros _. exists 0%nat. simpl. rewrite app_nil_r. reflexivity.
    + discriminate.
    + destruct (GetBuild client namespace name buildNumber (world st)) as [[b|e] w];
        [|discriminate].
      destruct (BuildStatus b); try discriminate;
        intros H; destruct (IH _ H) as [k ->]; exists (S k); simpl;
        rewrite <- app_assoc; reflexivity.
Qed.

Lemma cancels_fetches n ok :
  List.filter (fun i => isCancel (op i)) (replicate n (statusFetch ok)) = [].
Proof. induction n as [|n IH]; simpl; [reflexivity|exact IH]. Qed.

(** A blocking loop that returns nil makes the tick [break I]; its error is
    the error the tick returns. *)
Lemma afterTrigger_block (newBuild : Build) evs (st : State W) :
  Block (settings p) = true ->
  buildNumber = Number newBuild ->
  afterTrigger client p namespace name newBuild evs st
  = (match fst (block evs st) with
     | Nil => BreakI
     | Failure err => Return err
     | Parked => Park
     | Panicked => Panic
     end, snd (block evs st)).
Proof.
  intros Hb ->. unfold afterTrigger. rewrite Hb. unfold_run.
  destruct (blockUntilBuildIsFinished _ _ _ _ _ _) as [[|e| |] st']; reflexivity.
Qed.

(** C4.  What the code does when a signal arrives during blocking, after
    any number of selects that left the loop running.  In the first blocking
    call of the process, one cancel request is issued for the build being
    watched and the loop returns at once: "could not cancel downstream job"
    if the cancel call fails, and nil if it succeeds; that nil is the nil of
    a build that passed, so the tick that triggered ends in [break I] and the
    run goes on as after a success, where the claim has it end without
    success.  In any later blocking call the channel that the earlier call
    closed is still registered: the signal panics the process, and no cancel
    request is issued at all, where the claim has exactly one. *)
Theorem block_signal_cancels_once pre rest newBuild (st st' : State W) :
  Block (settings p) = true ->
  buildNumber = Number newBuild ->
  block pre st = (Parked, st') ->
  let reply := BuildCancel client namespace name buildNumber (world st') in
  let cancel :=
    mkInvocation (CBuildCancel namespace name buildNumber)
      (bool_decide (fst reply = None)) in
  let fetches := calls st ++ replicate (length pre) (statusFetch true) in
  (closedSigs st = 0%nat ->
     block (pre ++ Signal :: rest) st
     = (match fst reply with
        | Some _ => Failure (ErrCouldNotCancel buildNumber)
        | None => Nil
        end, mkState (snd reply) (fetches ++ [cancel]) 1)
     /\ afterTrigger client p namespace name newBuild (pre ++ Signal :: rest) st
        = (match fst reply with
           | Some _ => Return (ErrCouldNotCancel buildNumber)
           | None => BreakI
           end, mkState (snd reply) (fetches ++ [cancel]) 1)
     /\ cancels (fetches ++ [cancel]) = cancels (calls st) ++ [cancel])
  /\ (closedSigs st <> 0%nat ->
      block (pre ++ Signal :: rest) st
      = (Panicked, mkState (world st') fetches (closedSigs st))
      /\ afterTrigger client p namespace name newBuild (pre ++ Signal :: rest) st
         = (Panic, mkState (world st') fetches (closedSigs st))
      /\ cancels fetches = cancels (calls st)).
Proof.
  intros Hb Hn Hpre reply cancel fetches.
  assert (Hlog : calls st' = fetches) by exact (block_parked_log _ _ _ Hpre).
  assert (Hsigs : closedSigs st' = closedSigs st) by exact (block_parked_sigs _ _ _ Hpre).
  assert (Hc : cancels fetches = cancels (calls st)).
  { subst fetches. unfold cancels.
    rewrite List.filter_app, cancels_fetches, app_nil_r. reflexivity. }
  split.
  - intros Hz.
    assert (Hrun : block (pre ++ Signal :: rest) st
                   = (match fst reply with
                      | Some _ => Failure (ErrCouldNotCancel buildNumber)
                      | None => Nil
                      end, mkState (snd reply) (fetches ++ [cancel]) 1)).
    { rewrite (block_app _ (Signal :: rest) _ _ Hpre). simpl.
      rewrite Hsigs, Hz. simpl. unfold_run. subst cancel reply. rewrite Hlog, Hsigs, Hz.
      destruct (BuildCancel client namespace name buildNumber (world st')) as [[e|] w];
        reflexivity. }
    split; [exact Hrun|]. split.
    + rewrite (afterTrigger_block _ _ _ Hb Hn), Hrun. simpl.
      destruct (fst reply); reflexivity.
    + unfold cancels in *. rewrite List.filter_app, Hc. reflexivity.
  - intros Hnz.
    assert (Hrun : block (pre ++ Signal :: rest) st
                   = (Panicked, mkState (world st') fetches (closedSigs st))).
    { rewrite (block_app _ (Signal :: rest) _ _ Hpre). simpl.
      rewrite Hsigs. destruct (Nat.eqb_spec (closedSigs st) 0) as [Hz|_];
        [contradiction|].
      rewrite <- Hlog, <- Hsigs. destruct st'. reflexivity. }
    split; [exact Hrun|]. split; [|exact Hc].
    rewrite (afterTrigger_block _ _ _ Hb Hn), Hrun. reflexivity.
Qed.

End BlockingFacts.

(** ** The trigger loop *)

Section TriggerFacts.
Context {W : Type}.
Variable client : Client W.
Variable p : Plugin.
Variables entry owner name branch : string.

Local Abbreviation lastFetch := (mkInvocation (CBuildLast owner name branch)).
Local Abbreviation listFetch := (mkInvocation (CBuildList owner name)).

Lemma isBusy_running b : BuildStatus b = StatusRunning -> isBusy b = true.
Proof. unfold isBusy. intros ->. reflexivity. Qed.

Lemma isBusy_passing b : BuildStatus b = StatusPassing -> isBusy b = false.
Proof. unfold isBusy. intros ->. reflexivity. Qed.

Lemma triggers_app l1 l2 : triggers (l1 ++ l2) = triggers l1 ++ triggers l2.
Proof. apply List.filter_app. Qed.

Lemma triggers_none l :
  Forall (fun i => isTrigger (op i) = false) l -> triggers l = [].
Proof.
  induction 1 as [|i l Hi _ IH]; [reflexivity|].
  unfold triggers in *. simpl. rewrite Hi. exact IH.
Qed.

(** C5.  Plain rebuild under [Wait] (and so, the settings being valid,
    without [LastSuccessful]): when the latest build is running at the first
    two ticks and passing at the third, the first two ticks make their fetch
    and no other call, and the third makes its fetch and one restart of that
    build, the only trigger of the three ticks.  When that restart succeeds
    the loop is left at once: the result does not depend on the selects that
    would follow, it is nil without [Block], and with [Block] what the
    blocking loop returns, which adds no trigger to the log. *)
Theorem rebuild_waits_two_ticks_then_restarts
    (sched : Schedule) rest b1 b2 b3 reply (w0 w1 w2 w3 w4 : W) :
  parseRepoBranch entry = (owner, name, branch) ->
  isEmpty owner = false -> isEmpty name = false ->
  isEmpty (Deploy (settings p)) = true ->
  Wait (settings p) = true ->
  LastSuccessful (settings p) = false ->
  BuildLast client owner name branch w0 = (Ok b1, w1) ->
  BuildStatus b1 = StatusRunning ->
  BuildLast client owner name branch w1 = (Ok b2, w2) ->
  BuildStatus b2 = StatusRunning ->
  BuildLast client owner name branch w2 = (Ok b3, w3) ->
  BuildStatus b3 = StatusPassing ->
  BuildRestart client owner name (Number b3) (params (settings p)) w3
  = (reply, w4) ->
  let restart :=
    mkInvocation (CBuildRestart owner name (Number b3) (params (settings p))) in
  let triggered :=
    mkState w4 [lastFetch true; lastFetch true; lastFetch true; restart true] 0 in
  let run evs :=
    executeEntry client p entry (mkSchedule evs (blocking sched)) (start w0) in
  run [PollTick] = (Parked, mkState w1 [lastFetch true] 0)
  /\ run [PollTick; PollTick]
     = (Parked, mkState w2 [lastFetch true; lastFetch true] 0)
  /\ triggers (calls (snd (run [PollTick; PollTick; PollTick])))
     = [restart (isOk reply)]
  /\ (forall newBuild, reply = Ok newBuild ->
        run (PollTick :: PollTick :: PollTick :: rest)
        = (if Block (settings p)
           then blockUntilBuildIsFinished client owner name (Number newBuild)
                  (blocking sched) triggered
           else (Nil, triggered))
        /\ triggers (calls (snd (run (PollTick :: PollTick :: PollTick :: rest))))
           = [restart true]).
Proof.
  intros Hparse Ho Hn Hd Hw Hl H1 S1 H2 S2 H3 S3 H4 restart triggered run.
  assert (T1 : forall bevs,
             onTick client p entry owner name branch bevs false (start w0)
             = (Continue true, mkState w1 [lastFetch true] 0)).
  { intros bevs. unfold onTick, rebuildTick. rewrite Hd, Hw. unfold_run.
    rewrite H1. reduce_run. rewrite (isBusy_running _ S1). reflexivity. }
  assert (T2 : forall bevs,
             onTick client p entry owner name branch bevs true
               (mkState w1 [lastFetch true] 0)
             = (Continue true, mkState w2 [lastFetch true; lastFetch true] 0)).
  { intros bevs. unfold onTick, rebuildTick. rewrite Hd, Hw, Hl. unfold_run.
    rewrite H2. reduce_run. rewrite (isBusy_running _ S2). reflexivity. }
  assert (T3 : forall bevs,
             onTick client p entry owner name branch bevs true
               (mkState w2 [lastFetch true; lastFetch true] 0)
             = match reply with
               | Ok newBuild =>
                   afterTrigger client p owner name newBuild bevs triggered
               | Err _ =>
                   (Continue true,
                    mkState w4 [lastFetch true; lastFetch true; lastFetch true;
                                restart false] 0)
               end).
  { intros bevs. unfold onTick, rebuildTick. rewrite Hd, Hw, Hl. unfold_run.
    rewrite H3. reduce_run. rewrite (isBusy_passing _ S3). reduce_run.
    rewrite H4. destruct reply; reflexivity. }
  assert (E : forall evs, run evs
                          = pollLoop client p entry owner name branch (blocking sched)
                              evs false (start w0)).
  { intros evs. subst run. unfold executeEntry. simpl.
    rewrite Hparse, Ho, Hn, Hd. reflexivity. }
  assert (R : forall newBuild, reply = Ok newBuild -> forall evs,
             run (PollTick :: PollTick :: PollTick :: evs)
             = (if Block (settings p)
                then blockUntilBuildIsFinished client owner name
                       (Number newBuild) (blocking sched) triggered
                else (Nil, triggered))).
  { intros newBuild -> evs. rewrite E. simpl. unfold_run. rewrite T1, T2, T3.
    unfold afterTrigger. destruct (Block (settings p)); [|reflexivity].
    unfold_run.
    destruct (blockUntilBuildIsFinished _ _ _ _ _ _) as [[|e| |] st']; reflexivity. }
  assert (Tr : forall newBuild,
             triggers (calls (snd (if Block (settings p)
                                   then blockUntilBuildIsFinished client owner name
                                          (Number newBuild) (blocking sched) triggered
                                   else (Nil, triggered))))
             = [restart true]).
  { intros newBuild. destruct (Block (settings p)); [|reflexivity].
    destruct (block_log_no_trigger client owner name (Number newBuild)
                (blocking sched) triggered) as (l & -> & Hno).
    rewrite triggers_app, (triggers_none _ Hno). reflexivity. }
  split; [|split; [|split]].
  - rewrite E. simpl. unfold_run. rewrite T1. reflexivity.
  - rewrite E. simpl. unfold_run. rewrite T1, T2. reflexivity.
  - destruct reply as [newBuild|e].
    + rewrite (R newBuild eq_refl []). apply Tr.
    + rewrite E. simpl. unfold_run. rewrite T1, T2, T3. reflexivity.
  - intros newBuild Hr. split; [exact (R newBuild Hr rest)|].
    rewrite (R newBuild Hr rest). apply Tr.
Qed.

(** The scan finds nothing when no build of the list is on the branch with
    status passing, and what it finds is such a build. *)
Lemma firstPassing_none (builds : list Build) :
  Forall (fun b => ~ (Source b = branch /\ BuildStatus b = StatusPassing)) builds ->
  firstPassing branch builds = None.
Proof.
  induction 1 as [|b builds Hb _ IH]; [reflexivity|].
  unfold firstPassing in *. simpl.
  destruct (bool_decide (Source b = branch)) eqn:E1;
    destruct (bool_decide (BuildStatus b = StatusPassing)) eqn:E2; simpl;
    try exact IH.
  exfalso. apply Hb.
  split; [exact (bool_decide_eq_true_1 _ E1)|exact (bool_decide_eq_true_1 _ E2)].
Qed.

Lemma firstPassing_some (builds : list Build) b :
  firstPassing branch builds = Some b ->
  Source b = branch /\ BuildStatus b = StatusPassing.
Proof.
  intros H. apply List.find_some in H as [_ H].
  apply andb_prop in H as [H1 H2].
  split; [exact (bool_decide_eq_true_1 _ H1)|exact (bool_decide_eq_true_1 _ H2)].
Qed.

(** C7.  Plain rebuild under [LastSuccessful] (and so, the settings being
    valid, without [Wait]): when the latest build of the branch is not
    passing and the build list has no build on the branch with status
    passing, the first tick ends the run with the error "unable to get last
    successful build for" the entry, after the two fetches and no trigger;
    the remaining targets are not processed. *)
Theorem lastSuccessful_without_passing_build
    (sched : Schedule) rest others scheds b builds (w0 w1 w2 : W) :
  Repos (settings p) = entry :: others ->
  parseRepoBranch entry = (owner, name, branch) ->
  isEmpty owner = false -> isEmpty name = false ->
  isEmpty (Deploy (settings p)) = true ->
  LastSuccessful (settings p) = true ->
  Wait (settings p) = false ->
  BuildLast client owner name branch w0 = (Ok b, w1) ->
  BuildStatus b <> StatusPassing ->
  BuildList client owner name w1 = (Ok builds, w2) ->
  Forall (fun b' => ~ (Source b' = branch /\ BuildStatus b' = StatusPassing))
    builds ->
  let run := Execute client p
               (mkSchedule (PollTick :: rest) (blocking sched) :: scheds)
               (start w0) in
  run = (Failure (ErrNoLastSuccessful entry),
         mkState w2 [lastFetch true; listFetch true] 0)
  /\ triggers (calls (snd run)) = []
  /\ Error (ErrNoLastSuccessful entry)
     = "unable to get last successful build for " +:+ entry.
Proof.
  intros Hrepos Hparse Ho Hn Hd Hl Hw H1 S1 H2 Hnone run.
  assert (R : run = (Failure (ErrNoLastSuccessful entry),
                     mkState w2 [lastFetch true; listFetch true] 0)).
  { subst run. unfold Execute. rewrite Hrepos. simpl. unfold_run.
    unfold executeEntry. rewrite Hparse, Ho, Hn, Hd. simpl. unfold_run.
    unfold onTick, rebuildTick. rewrite Hd, Hl, Hw. unfold_run.
    rewrite H1. reduce_run.
    rewrite (bool_decide_eq_false_2 _ S1). reduce_run.
    rewrite H2. reduce_run. rewrite (firstPassing_none _ Hnone). reflexivity. }
  split; [exact R|]. split; [rewrite R; reflexivity|reflexivity].
Qed.

(** A tick's blocking only appends to the log, and never a trigger. *)
Lemma afterTrigger_log newBuild bevs (st : State W) :
  exists l,
    calls (snd (afterTrigger client p owner name newBuild bevs st)) = calls st ++ l
    /\ Forall (fun i => isTrigger (op i) = false) l
    /\ forall waiting, fst (afterTrigger client p owner name newBuild bevs st)
                       <> Continue waiting.
Proof.
  unfold afterTrigger. destruct (Block (settings p)).
  - unfold_run.
    destruct (block_log_no_trigger client owner name (Number newBuild) bevs st)
      as (l & Hl & Hno).
    exists l.
    destruct (blockUntilBuildIsFinished _ _ _ _ _ _) as [[|e| |] st']; simpl in *;
      (split; [exact Hl|split; [exact Hno|discriminate]]).
  - exists []. simpl. rewrite app_nil_r.
    split; [reflexivity|split; [constructor|discriminate]].
Qed.




(** Deploy by build number under [Wait]: at a tick that starts with the
    waiting flag set and finds the reference build running or pending, the
    deploy part neither continues nor triggers, and the tick runs the
    plain-rebuild part, with the build number as the branch. *)
Lemma deploy_waiting_busy_runs_rebuild bevs b w1 (st : State W) :
  isEmpty (Deploy (settings p)) = false ->
  Wait (settings p) = true ->
  LastSuccessful (settings p) = false ->
  GetBuild client owner name (fst (Atoi branch)) (world st) = (Ok b, w1) ->
  isBusy b = true ->
  onTick client p entry owner name branch bevs true st
  = rebuildTick client p entry owner name branch bevs true
      (mkState w1
         (calls st ++ [mkInvocation (CBuild owner name (fst (Atoi branch))) true]) (closedSigs st)).
Proof.
  intros Hd Hw Hl Hget Hbusy. unfold onTick. rewrite Hd, Hw, Hl. unfold_run.
  rewrite Hget. reduce_run. rewrite Hbusy. reflexivity.
Qed.

(** C1.  What the code does at a tick of the deploy path under [Wait] that
    starts with the waiting flag set and finds the reference build running
    or pending: the tick does not end there, as the claim has it.  It runs
    the plain-rebuild part: it always makes a further fetch, of the latest
    build of the "branch" named by the build number; when that fetch fails
    the error is swallowed and the tick ends in [continue]; and when it
    returns a build that is neither running nor pending the tick issues a
    restart trigger for that build. *)
Theorem deploy_wait_busy_tick_fetches_again bevs b w1 (st : State W) :
  isEmpty (Deploy (settings p)) = false ->
  Wait (settings p) = true ->
  LastSuccessful (settings p) = false ->
  GetBuild client owner name (fst (Atoi branch)) (world st) = (Ok b, w1) ->
  isBusy b = true ->
  let r := onTick client p entry owner name branch bevs true st in
  let refFetch := mkInvocation (CBuild owner name (fst (Atoi branch))) true in
  let latest := BuildLast client owner name branch w1 in
  (forall e, fst latest = Err e ->
     r = (Continue true,
          mkState (snd latest) (calls st ++ [refFetch; lastFetch false]) (closedSigs st)))
  /\ (forall b', fst latest = Ok b' ->
        exists more,
          calls (snd r) = calls st ++ [refFetch; lastFetch true] ++ more
          /\ (isBusy b' = false ->
              exists ok more',
                more = mkInvocation
                         (CBuildRestart owner name (Number b')
                            (params (settings p))) ok :: more')).
Proof.
  intros Hd Hw Hl Hget Hbusy r refFetch latest. subst r.
  rewrite (deploy_waiting_busy_runs_rebuild bevs b w1 st Hd Hw Hl Hget Hbusy).
  unfold rebuildTick. rewrite Hw, Hl. unfold_run. subst latest.
  destruct (BuildLast client owner name branch w1) as [[b'|e] w2]; reduce_run.
  - split; [discriminate|]. intros ? [= <-].
    destruct (isBusy b') eqn:Hb'; reduce_run.
    + exists []. rewrite <- app_assoc. split; [reflexivity|discriminate].
    + destruct (BuildRestart client owner name (Number b') (params (settings p)) w2)
        as [[nb|e] w3]; reduce_run.
      * match goal with
        | |- context [afterTrigger _ _ _ _ ?nb ?evs ?s] =>
            destruct (afterTrigger_log nb evs s) as (l & Hlog & _)
        end.
        eexists. split.
        -- rewrite Hlog. simpl. rewrite <- !app_assoc. simpl. reflexivity.
        -- intros _. eexists _, _. reflexivity.
      * eexists. split.
        -- rewrite <- !app_assoc. simpl. reflexivity.
        -- intros _. eexists _, _. reflexivity.
  - split; [|discriminate]. intros ? [= <-]. rewrite <- app_assoc. reflexivity.
Qed.

End TriggerFacts.

(** ** Runs on concrete inputs *)

Example rebuild_times_out_while_running :
  Execute scripted rebuildWait [mkSchedule [PollTick; PollTick; PollTimeout] []]
    (start [RBuild (Ok running7); RBuild (Ok running7)])
  = (Failure (ErrTimedOut "octo/app@main"),
     mkState []
       [mkInvocation (CBuildLast "octo" "app" "main") true;
        mkInvocation (CBuildLast "octo" "app" "main") true] 0).
Proof. reflexivity. Qed.

Lemma rebuild_waits_two_ticks_then_restarts_witness :
  executeEntry scripted rebuildWait "octo/app@main"
    (mkSchedule [PollTick; PollTick; PollTick; PollTick; PollTimeout] [])
    (start [RBuild (Ok running7); RBuild (Ok running7); RBuild (Ok passing7);
            RBuild (Ok pending8)])
  = (Nil,
     mkState []
       [mkInvocation (CBuildLast "octo" "app" "main") true;
        mkInvocation (CBuildLast "octo" "app" "main") true;
        mkInvocation (CBuildLast "octo" "app" "main") true;
        mkInvocation (CBuildRestart "octo" "app" 7 ∅) true] 0).
Proof.
  exact (proj1 (proj2 (proj2 (proj2
    (rebuild_waits_two_ticks_then_restarts scripted rebuildWait
       "octo/app@main" "octo" "app" "main" (mkSchedule [] [])
       [PollTick; PollTimeout] running7 running7 passing7 (Ok pending8)
       [RBuild (Ok running7); RBuild (Ok running7); RBuild (Ok passing7);
        RBuild (Ok pending8)]
       [RBuild (Ok running7); RBuild (Ok passing7); RBuild (Ok pending8)]
       [RBuild (Ok passing7); RBuild (Ok pending8)]
       [RBuild (Ok pending8)] []
       eq_refl eq_refl eq_refl eq_refl eq_refl eq_refl eq_refl eq_refl eq_refl
       eq_refl eq_refl eq_refl eq_refl))) pending8 eq_refl)).
Defined.

Lemma lastSuccessful_without_passing_build_witness :
  Execute scripted rebuildLast
    [mkSchedule [PollTick; PollTick] []; mkSchedule [PollTick] []]
    (start [RBuild (Ok failing7);
            RBuilds (Ok [failing7; mkBuild 6 StatusPassing "develop";
                         mkBuild 5 StatusKilled "main"])])
  = (Failure (ErrNoLastSuccessful "octo/app@main"),
     mkState []
       [mkInvocation (CBuildLast "octo" "app" "main") true;
        mkInvocation (CBuildList "octo" "app") true] 0).
Proof.
  refine (proj1
    (lastSuccessful_without_passing_build scripted rebuildLast
       "octo/app@main" "octo" "app" "main" (mkSchedule [] [])
       [PollTick] ["octo/lib"] [mkSchedule [PollTick] []] failing7
       [failing7; mkBuild 6 StatusPassing "develop"; mkBuild 5 StatusKilled "main"]
       [RBuild (Ok failing7);
        RBuilds (Ok [failing7; mkBuild 6 StatusPassing "develop";
                     mkBuild 5 StatusKilled "main"])]
       [RBuilds (Ok [failing7; mkBuild 6 StatusPassing "develop";
                     mkBuild 5 StatusKilled "main"])]
       [] eq_refl eq_refl eq_refl eq_refl eq_refl eq_refl eq_refl eq_refl
       _ eq_refl _)).
  - discriminate.
  - repeat constructor; intros [Hs Hp]; discriminate.
Defined.

Lemma deploy_wait_busy_tick_fetches_again_witness :
  exists more,
    calls (snd (onTick scripted deployWait "octo/app@42" "octo" "app" "42" [] true
                  (start [RBuild (Ok (mkBuild 42 StatusRunning "main"));
                          RBuild (Ok (mkBuild 57 StatusPassing "42"));
                          RBuild (Ok (mkBuild 58 StatusPending "42"))])))
    = [mkInvocation (CBuild "octo" "app" 42) true;
       mkInvocation (CBuildLast "octo" "app" "42") true] ++ more
    /\ exists ok more',
         more = mkInvocation (CBuildRestart "octo" "app" 57 ∅) ok :: more'.
Proof.
  destruct (proj2
    (deploy_wait_busy_tick_fetches_again scripted deployWait
       "octo/app@42" "octo" "app" "42" [] (mkBuild 42 StatusRunning "main")
       [RBuild (Ok (mkBuild 57 StatusPassing "42"));
        RBuild (Ok (mkBuild 58 StatusPending "42"))]
       (start [RBuild (Ok (mkBuild 42 StatusRunning "main"));
               RBuild (Ok (mkBuild 57 StatusPassing "42"));
               RBuild (Ok (mkBuild 58 StatusPending "42"))])
       eq_refl eq_refl eq_refl eq_refl eq_refl)
    (mkBuild 57 StatusPassing "42") eq_refl) as (more & Hlog & Hmore).
  exists more. split; [exact Hlog|exact (Hmore eq_refl)].
Defined.

(** The run of the code behind C1: deploy of build 42 under [Wait].  Build
    42 is running at the first tick and still running at the second; the
    second tick goes on to fetch the latest build of "branch" 42 and restarts
    the build it gets, and the run ends as if the deploy had been done. *)
Example deploy_wait_busy_tick_runs :
  onTick scripted deployWait "octo/app@42" "octo" "app" "42" [] true
    (start [RBuild (Ok (mkBuild 42 StatusRunning "main"));
            RBuild (Ok (mkBuild 57 StatusPassing "42"));
            RBuild (Ok (mkBuild 58 StatusPending "42"))])
  = (BreakI,
     mkState []
       [mkInvocation (CBuild "octo" "app" 42) true;
        mkInvocation (CBuildLast "octo" "app" "42") true;
        mkInvocation (CBuildRestart "octo" "app" 57 ∅) true] 0)
  /\ onTick scripted deployWait "octo/app@42" "octo" "app" "42" [] true
       (start [RBuild (Ok (mkBuild 42 StatusRunning "main"));
               RBuild (Err (External "404 Not Found"))])
     = (Continue true,
        mkState []
          [mkInvocation (CBuild "octo" "app" 42) true;
           mkInvocation (CBuildLast "octo" "app" "42") false] 0)
  /\ Execute scripted deployWait [mkSchedule [PollTick; PollTick; PollTick] []]
       (start [RBuild (Ok (mkBuild 42 StatusRunning "main"));
               RBuild (Ok (mkBuild 42 StatusRunning "main"));
               RBuild (Ok (mkBuild 57 StatusPassing "42"));
               RBuild (Ok (mkBuild 58 StatusPending "42"))])
     = (Nil,
        mkState []
          [mkInvocation (CBuild "octo" "app" 42) true;
           mkInvocation (CBuild "octo" "app" 42) true;
           mkInvocation (CBuildLast "octo" "app" "42") true;
           mkInvocation (CBuildRestart "octo" "app" 57 ∅) true] 0).
Proof. repeat split. Qed.


(** The same target when the list is served: the first tick promotes the
    first passing build of the branch and the loop is left; no tick of a
    deploy under [LastSuccessful] waits. *)
Example deploy_lastSuccessful_promotes_at_first_tick :
  Execute scripted deployLast [mkSchedule [PollTick; PollTick] []]
    (start [RBuilds (Ok [running8; passing7]); RBuild (Ok (mkBuild 9 StatusPending "main"))])
  = (Nil,
     mkState []
       [mkInvocation (CBuildList "octo" "app") true;
        mkInvocation (CPromote "octo" "app" 7 "production" ∅) true] 0).
Proof. reflexivity. Qed.


Example trigger_failure_runs :
  onTick scripted deployWait "octo/app@42" "octo" "app" "42" [] false
    (start [RBuild (Ok passing7); RBuild (Err badGateway)])
  = (Return (ErrTriggerDeploy "octo/app@42" badGateway),
     mkState []
       [mkInvocation (CBuild "octo" "app" 42) true;
        mkInvocation (CPromote "octo" "app" 7 "production" ∅) false] 0)
  /\ Error (ErrTriggerDeploy "octo/app@42" badGateway)
     = "unable to trigger deploy for octo/app@42 - err 502 Bad Gateway".
Proof. split; reflexivity. Qed.

(** The two states from which the blocking loop is run below are states of
    runs: with no select left for the blocking loop, the run stays in its
    first select at them. *)
Example triggered_states_are_reached :
  forall w,
    Execute scripted rebuildBlock [mkSchedule [PollTick] []]
      (start (RBuild (Ok passing7) :: RBuild (Ok pending8) :: w))
    = (Parked, triggered8 w)
    /\ Execute scripted rebuildBlock
         [mkSchedule [PollTick] [BlockTick]; mkSchedule [PollTick] []]
         (start (RBuild (Ok passing7) :: RBuild (Ok pending8)
                 :: RBuild (Ok (mkBuild 8 StatusPassing "main"))
                 :: RBuild (Ok (mkBuild 3 StatusFailing ""))
                 :: RBuild (Ok (mkBuild 4 StatusPending "")) :: w))
       = (Parked, triggered4 w).
Proof. intros w. split; reflexivity. Qed.

Lemma block_signal_cancels_once_witness :
  blockUntilBuildIsFinished scripted "octo" "app" 8 [BlockTick; Signal; BlockTick]
    (triggered8 [RBuild (Ok running8); RCancel None; RBuild (Ok passing7)])
  = (Nil,
     mkState [RBuild (Ok passing7)]
       [mkInvocation (CBuildLast "octo" "app" "main") true;
        mkInvocation (CBuildRestart "octo" "app" 7 ∅) true;
        mkInvocation (CBuild "octo" "app" 8) true;
        mkInvocation (CBuildCancel "octo" "app" 8) true] 1)
  /\ blockUntilBuildIsFinished scripted "octo" "lib" 4 [BlockTick; Signal; BlockTick]
       (triggered4 [RBuild (Ok (mkBuild 4 StatusRunning "")); RCancel None])
     = (Panicked,
        mkState [RCancel None]
          [mkInvocation (CBuildLast "octo" "app" "main") true;
           mkInvocation (CBuildRestart "octo" "app" 7 ∅) true;
           mkInvocation (CBuild "octo" "app" 8) true;
           mkInvocation (CBuildLast "octo" "lib" "") true;
           mkInvocation (CBuildRestart "octo" "lib" 3 ∅) true;
           mkInvocation (CBuild "octo" "lib" 4) true] 1).
Proof.
  split.
  - exact (proj1 (proj1
      (block_signal_cancels_once scripted rebuildBlock "octo" "app" 8
         [BlockTick] [BlockTick] pending8
         (triggered8 [RBuild (Ok running8); RCancel None; RBuild (Ok passing7)])
         (mkState [RCancel None; RBuild (Ok passing7)]
            (calls (triggered8 []) ++ [mkInvocation (CBuild "octo" "app" 8) true])
            0)
         eq_refl eq_refl eq_refl) eq_refl)).
  - refine (proj1 (proj2
      (block_signal_cancels_once scripted rebuildBlock "octo" "lib" 4
         [BlockTick] [BlockTick] (mkBuild 4 StatusPending "")
         (triggered4 [RBuild (Ok (mkBuild 4 StatusRunning "")); RCancel None])
         (mkState [RCancel None]
            (calls (triggered4 []) ++ [mkInvocation (CBuild "octo" "lib" 4) true])
            1)
         eq_refl eq_refl eq_refl) _)).
    discriminate.
Defined.

(** The runs of the code behind C4.  A signal during the blocking of the
    first target is answered by one cancel request, which succeeds; the run
    does not end there: it goes on to the second target, restarts its latest
    build, and returns nil. *)
Example cancelled_run_returns_nil :
  Execute scripted rebuildBlock
    [mkSchedule [PollTick] [BlockTick; Signal]; mkSchedule [PollTick] [BlockTick]]
    (start [RBuild (Ok passing7); RBuild (Ok pending8); RBuild (Ok running8);
            RCancel None;
            RBuild (Ok (mkBuild 3 StatusFailing "")); RBuild (Ok (mkBuild 4 StatusPending ""));
            RBuild (Ok (mkBuild 4 StatusPassing ""))])
  = (Nil,
     mkState []
       [mkInvocation (CBuildLast "octo" "app" "main") true;
        mkInvocation (CBuildRestart "octo" "app" 7 ∅) true;
        mkInvocation (CBuild "octo" "app" 8) true;
        mkInvocation (CBuildCancel "octo" "app" 8) true;
        mkInvocation (CBuildLast "octo" "lib" "") true;
        mkInvocation (CBuildRestart "octo" "lib" 3 ∅) true;
        mkInvocation (CBuild "octo" "lib" 4) true] 2).
Proof. reflexivity. Qed.

(** And a signal during the blocking of the second target, the first having
    passed, kills the process with its downstream build left running: no
    cancel request is made. *)
Example signal_in_second_blocking_panics :
  Execute scripted rebuildBlock
    [mkSchedule [PollTick] [BlockTick]; mkSchedule [PollTick] [BlockTick; Signal]]
    (start [RBuild (Ok passing7); RBuild (Ok pending8);
            RBuild (Ok (mkBuild 8 StatusPassing "main"));
            RBuild (Ok (mkBuild 3 StatusFailing "")); RBuild (Ok (mkBuild 4 StatusPending ""));
            RBuild (Ok (mkBuild 4 StatusRunning "")); RCancel None])
  = (Panicked,
     mkState [RCancel None]
       [mkInvocation (CBuildLast "octo" "app" "main") true;
        mkInvocation (CBuildRestart "octo" "app" 7 ∅) true;
        mkInvocation (CBuild "octo" "app" 8) true;
        mkInvocation (CBuildLast "octo" "lib" "") true;
        mkInvocation (CBuildRestart "octo" "lib" 3 ∅) true;
        mkInvocation (CBuild "octo" "lib" 4) true] 1).
Proof. reflexivity. Qed.

(** * Further properties of the code *)

(** ** Parameters *)

Lemma SplitN2_absent sep s : occurs sep s = false -> SplitN2 sep s = [s].
Proof.
  induction s as [|c s IH]; simpl; [reflexivity|].
  destruct (Ascii.eqb c sep); [discriminate|].
  intros H. rewrite (IH H). reflexivity.
Qed.

Lemma SplitN2_first sep k v :
  occurs sep k = false -> SplitN2 sep (k +:+ String sep v) = [k; v].
Proof.
  induction k as [|c k IH]; simpl.
  - intros _. rewrite Ascii.eqb_refl. reflexivity.
  - destruct (Ascii.eqb c sep); [discriminate|].
    intros H. rewrite (IH H). reflexivity.
Qed.

Lemma SplitN2_present sep s :
  occurs sep s = true ->
  exists k v, SplitN2 sep s = [k; v] /\ s = k +:+ String sep v
              /\ occurs sep k = false.
Proof.
  induction s as [|c s IH]; simpl; [discriminate|].
  destruct (Ascii.eqb c sep) eqn:E.
  - intros _. apply Ascii.eqb_eq in E as ->. exists EmptyString, s.
    repeat split.
  - intros H. destruct (IH H) as (k & v & -> & -> & Hk).
    exists (String c k), v. simpl. rewrite E. repeat split. exact Hk.
Qed.

(** The loop of [parseParams] over a list in two parts is the loop over the
    first part followed, if it did not fail, by the loop over the second. *)
Lemma parseParamsFrom_app fs l1 l2 m :
  parseParamsFrom fs (l1 ++ l2) m
  = match parseParamsFrom fs l1 m with
    | Ok m' => parseParamsFrom fs l2 m'
    | Err e => Err e
    end.
Proof.
  revert m. induction l1 as [|p l1 IH]; intros m; simpl; [reflexivity|].
  destruct (SplitN2 "=" p) as [|k [|v [|x xs]]]; simpl;
    try (destruct (fs _); [reflexivity|reflexivity|apply IH]).
  apply IH.
Qed.

(** X1.  Every entry that holds an [=] is a literal, cut at its first [=]:
    the key is what precedes it, and has no [=]; the value is all that
    follows, further [=] included; the entry is written into the mapping
    under that key, and the file system is not consulted for it. *)
Theorem parseParams_literal fs (entry : string) rest (m : gmap string string) :
  occurs "=" entry = true ->
  exists k v,
    entry = k +:+ String "=" v
    /\ occurs "=" k = false
    /\ (forall k' v', entry = k' +:+ String "=" v' -> occurs "=" k' = false ->
          k' = k /\ v' = v)
    /\ parseParamsFrom fs (entry :: rest) m
       = parseParamsFrom fs rest (<[k := v]> m).
Proof.
  intros H. destruct (SplitN2_present _ _ H) as (k & v & Hs & -> & Hk).
  exists k, v. split; [reflexivity|]. split; [exact Hk|]. split.
  - intros k' v' He Hk'. rewrite He, (SplitN2_first _ _ _ Hk') in Hs.
    injection Hs as -> ->. split; reflexivity.
  - simpl. rewrite Hs. reflexivity.
Qed.

Lemma parseParams_literal_witness :
  parseParams (fun _ => NotExist) ["B=x=y"] = Ok {[ "B" := "x=y" ]}.
Proof.
  destruct (parseParams_literal (fun _ => NotExist) "B=x=y" [] ∅ eq_refl)
    as (k & v & He & Hk & Huniq & Hrun).
  destruct (Huniq "B" "x=y" eq_refl eq_refl) as [<- <-].
  exact Hrun.
Defined.

(** X2.  A list of literals (every entry has an [=]) never fails, and its
    result does not depend on the file system. *)
Theorem parseParams_literals_only fs fs' (paramList : list string) :
  Forall (fun p => occurs "=" p = true) paramList ->
  isOk (parseParams fs paramList) = true
  /\ parseParams fs paramList = parseParams fs' paramList.
Proof.
  unfold parseParams. generalize (∅ : gmap string string).
  intros m H. revert m. induction H as [|p l Hp _ IH]; intros m; simpl.
  - split; reflexivity.
  - destruct (SplitN2_present _ _ Hp) as (k & v & -> & _ & _). apply IH.
Qed.

Lemma parseParams_literals_only_witness :
  isOk (parseParams (fun _ => NotExist) ["A=1"; "B=x=y"]) = true
  /\ parseParams (fun _ => NotExist) ["A=1"; "B=x=y"]
     = parseParams paramsFiles ["A=1"; "B=x=y"].
Proof.
  apply parseParams_literals_only. repeat constructor.
Defined.

(** X3.  Last write wins, whatever the source: when the list parses, a key
    given by its last entry, literal or file, holds the value that entry
    gives it, and every other key holds what the entries before it left. *)
Theorem parseParams_last_wins fs (paramList : list string) (p : string)
    (before after : gmap string string) :
  parseParams fs paramList = Ok before ->
  parseParams fs (paramList ++ [p]) = Ok after ->
  (forall k v, SplitN2 "=" p = [k; v] ->
     after !! k = Some v /\ forall k', k' <> k -> after !! k' = before !! k')
  /\ (forall file, occurs "=" p = false -> fs p = EnvFile file ->
        forall k, after !! k = match file !! k with
                               | Some v => Some v
                               | None => before !! k
                               end).
Proof.
  unfold parseParams. intros Hb Ha.
  rewrite parseParamsFrom_app, Hb in Ha. simpl in Ha.
  split.
  - intros k v Hs. rewrite Hs in Ha. injection Ha as <-.
    split; [apply lookup_insert_eq|].
    intros k' Hne. apply lookup_insert_ne. congruence.
  - intros file Hp Hf k. rewrite (SplitN2_absent _ _ Hp) in Ha. simpl in Ha.
    rewrite Hf in Ha. injection Ha as <-.
    rewrite lookup_union. destruct (file !! k), (before !! k); reflexivity.
Qed.

Lemma parseParams_last_wins_witness :
  (forall m, parseParams paramsFiles ["A=1"; "extra.env"] = Ok m ->
             m !! "A" = Some "2")
  /\ (forall m, parseParams paramsFiles ["extra.env"; "A=1"] = Ok m ->
                m !! "A" = Some "1").
Proof.
  split; intros m Hm.
  - rewrite (proj2 (parseParams_last_wins paramsFiles ["A=1"] "extra.env"
                      {[ "A" := "1" ]} m eq_refl Hm)
               {[ "A" := "2"; "C" := "3" ]} eq_refl eq_refl "A").
    reflexivity.
  - exact (proj1 (proj1 (parseParams_last_wins paramsFiles ["extra.env"] "A=1"
                           {[ "A" := "2"; "C" := "3" ]} m eq_refl Hm)
                    "A" "1" eq_refl)).
Defined.

(** X4.  The first entry that has no [=] and names no existing file ends
    [parseParams] with "invalid param" naming that entry; the entries after
    it are not looked at. *)
Theorem parseParams_first_invalid fs (before : list string) (p : string)
    (rest : list string) :
  isOk (parseParams fs before) = true ->
  occurs "=" p = false ->
  fs p = NotExist ->
  parseParams fs (before ++ p :: rest) = Err (ErrInvalidParam p)
  /\ Error (ErrInvalidParam p)
     = "invalid param '" +:+ p +:+ "'; must be KEY=VALUE or file path".
Proof.
  unfold parseParams. intros Hb Hp Hf. split; [|reflexivity].
  rewrite parseParamsFrom_app.
  destruct (parseParamsFrom fs before ∅) as [m|e]; [|discriminate].
  simpl. rewrite (SplitN2_absent _ _ Hp). simpl. rewrite Hf. reflexivity.
Qed.

Lemma parseParams_first_invalid_witness :
  parseParams paramsFiles ["A=1"; "extra.env"; "missing.env"; "B=2"]
  = Err (ErrInvalidParam "missing.env").
Proof.
  exact (proj1 (parseParams_first_invalid paramsFiles ["A=1"; "extra.env"]
                  "missing.env" ["B=2"] eq_refl eq_refl eq_refl)).
Defined.

(** ** Validation *)

Lemma paramsFromEnv_nil_inv env keys m :
  snd (paramsFromEnv env keys m) = None ->
  forall k, k ∈ keys -> is_Some (env !! k).
Proof.
  revert m. induction keys as [|k0 keys IH]; intros m H k Hk.
  - apply elem_of_nil in Hk. contradiction.
  - simpl in H. unfold LookupEnv in H.
    destruct (env !! k0) as [v|] eqn:E; [|discriminate].
    apply elem_of_cons in Hk as [->|Hk]; [rewrite E; eexists; reflexivity|].
    exact (IH _ H k Hk).
Qed.

(** A server of the form [proto://host] is not empty. *)
Lemma getServerWithDefaults_empty server host protocol :
  isEmpty (getServerWithDefaults server host protocol)
  = isEmpty server && (isEmpty host || isEmpty protocol).
Proof.
  unfold getServerWithDefaults.
  destruct server; simpl; [|reflexivity].
  destruct host; simpl; [reflexivity|].
  destruct protocol; reflexivity.
Qed.

(** When [Validate] returns nil. *)
Lemma Validate_nil_conditions env fs (p : Plugin) :
  let s := settings p in
  snd (Validate env fs p) = None
  <-> isEmpty (Token s) = false
      /\ (isEmpty (Server s) = false
          \/ (isEmpty (SystemHost p) = false /\ isEmpty (SystemProto p) = false))
      /\ Wait s && LastSuccessful s = false
      /\ isOk (parseParams fs (Params s)) = true
      /\ (forall k, k ∈ ParamsEnv s -> is_Some (env !! k)).
Proof.
  intros s. unfold Validate. fold s. simpl.
  rewrite getServerWithDefaults_empty.
  destruct (isEmpty (Token s)); simpl.
  { split; [discriminate|intros (H & _); discriminate]. }
  destruct (isEmpty (Server s)) eqn:Es; simpl.
  - destruct (isEmpty (SystemHost p)) eqn:Eh; simpl.
    { split; [discriminate|].
      intros (_ & [H|[H _]] & _); discriminate. }
    destruct (isEmpty (SystemProto p)) eqn:Ep; simpl.
    { split; [discriminate|].
      intros (_ & [H|[_ H]] & _); discriminate. }
    destruct (Wait s && LastSuccessful s); simpl.
    { split; [discriminate|intros (_ & _ & H & _); discriminate]. }
    destruct (parseParams fs (Params s)) as [m|e]; simpl.
    + destruct (paramsFromEnv env (ParamsEnv s) _) as [m' err] eqn:Ee. simpl.
      split.
      * intros ->. repeat split; [right; split; reflexivity|].
        eapply paramsFromEnv_nil_inv. rewrite Ee. reflexivity.
      * intros (_ & _ & _ & _ & H).
        match type of Ee with
        | paramsFromEnv _ _ ?m0 = _ =>
            pose proof (paramsFromEnv_all_set env (ParamsEnv s) m0 H) as Hn
        end.
        rewrite Ee in Hn. exact Hn.
    + split; [discriminate|intros (_ & _ & _ & H & _); discriminate].
  - destruct (Wait s && LastSuccessful s); simpl.
    { split; [discriminate|intros (_ & _ & H & _); discriminate]. }
    destruct (parseParams fs (Params s)) as [m|e]; simpl.
    + destruct (paramsFromEnv env (ParamsEnv s) _) as [m' err] eqn:Ee. simpl.
      split.
      * intros ->. repeat split; [left; reflexivity|].
        eapply paramsFromEnv_nil_inv. rewrite Ee. reflexivity.
      * intros (_ & _ & _ & _ & H).
        match type of Ee with
        | paramsFromEnv _ _ ?m0 = _ =>
            pose proof (paramsFromEnv_all_set env (ParamsEnv s) m0 H) as Hn
        end.
        rewrite Ee in Hn. exact Hn.
    + split; [discriminate|intros (_ & _ & _ & H & _); discriminate].
Qed.

(** X5.  [Validate] returns nil exactly when there is a token, a server
    (given, or a host and a protocol of the pipeline to build it from), not
    both of [Wait] and [LastSuccessful], parameters that parse, and a value
    in the environment for every key of [ParamsEnv]. *)
Theorem Validate_nil_iff env fs (p : Plugin) :
  let s := settings p in
  snd (Validate env fs p) = None
  <-> isEmpty (Token s) = false
      /\ (isEmpty (Server s) = false
          \/ (isEmpty (SystemHost p) = false /\ isEmpty (SystemProto p) = false))
      /\ Wait s && LastSuccessful s = false
      /\ isOk (parseParams fs (Params s)) = true
      /\ (forall k, k ∈ ParamsEnv s -> is_Some (env !! k)).
Proof. exact (Validate_nil_conditions env fs p). Qed.

Lemma Validate_nil_iff_witness :
  snd (Validate paramsEnvironment paramsFiles paramsPlugin) = None.
Proof.
  apply (proj2 (Validate_nil_iff paramsEnvironment paramsFiles paramsPlugin)).
  repeat split; [right; split; reflexivity|].
  intros k Hk. apply list_elem_of_singleton in Hk as ->.
  eexists. reflexivity.
Defined.

(** X6.  The mapping a successful [Validate] leaves, key by key: a key of
    [ParamsEnv] holds its environment value; failing that, the upstream key
    holds [DRONE_BUILD_NUMBER] when that is set; failing that, a key holds
    what the literals and files gave it.  The server it leaves is the given
    one, or [proto://host]; the other settings are as they were. *)
Theorem Validate_result env fs (p p' : Plugin) :
  Validate env fs p = (p', None) ->
  let s := settings p in
  let s' := settings p' in
  (exists m, parseParams fs (Params s) = Ok m
     /\ forall k,
          params s' !! k
          = if bool_decide (k ∈ ParamsEnv s) then env !! k
            else if bool_decide (k = "DRONE_UPSTREAM_BUILD_NUMBER"
                                 /\ is_Some (env !! "DRONE_BUILD_NUMBER"))
                 then env !! "DRONE_BUILD_NUMBER"
                 else m !! k)
  /\ server s' = (if isEmpty (Server s)
                  then SystemProto p +:+ "://" +:+ SystemHost p
                  else Server s)
  /\ s' = set_params (params s') (set_server (server s') s)
  /\ SystemHost p' = SystemHost p /\ SystemProto p' = SystemProto p.
Proof.
  intros H s s'. subst s'.
  pose proof (proj1 (Validate_nil_conditions env fs p) (f_equal snd H))
    as (_ & Hsrv & _).
  unfold Validate in H. fold s in H.
  destruct (isEmpty (Token s)); [discriminate|].
  simpl in H.
  destruct (isEmpty (getServerWithDefaults _ _ _)); [discriminate|].
  destruct (Wait s && LastSuccessful s); [discriminate|].
  destruct (parseParams fs (Params s)) as [m|e]; [|discriminate].
  destruct (paramsFromEnv env (ParamsEnv s) _) as [m' err] eqn:Ee.
  injection H as <- ->. simpl.
  split; [|split; [|repeat split]].
  - exists m. split; [reflexivity|]. intros k.
    rewrite (paramsFromEnv_lookup _ _ _ _ k Ee).
    destruct (bool_decide (k ∈ ParamsEnv s)); [reflexivity|].
    unfold LookupEnv. destruct (env !! "DRONE_BUILD_NUMBER") as [v|] eqn:Ev.
    + case_bool_decide as Hk.
      * destruct Hk as [-> _]. apply lookup_insert_eq.
      * apply lookup_insert_ne. intros <-. apply Hk.
        split; [reflexivity|eexists; reflexivity].
    + case_bool_decide as Hk; [|reflexivity].
      destruct Hk as [_ [? ?]]. discriminate.
  - unfold getServerWithDefaults. fold s.
    destruct (isEmpty (Server s)) eqn:Es; simpl; [|reflexivity].
    destruct Hsrv as [Hs|[Hh Hp]]; [fold s in Hs; congruence|].
    rewrite Hh, Hp. reflexivity.
Qed.

Lemma Validate_result_witness :
  let s' := settings (fst (Validate paramsEnvironment paramsFiles paramsPlugin)) in
  params s' !! "API_KEY" = Some "hunter2"
  /\ params s' !! "DRONE_UPSTREAM_BUILD_NUMBER" = Some "9"
  /\ params s' !! "A" = Some "2"
  /\ params s' !! "B" = Some "x=y"
  /\ server s' = "https://ci.example.org".
Proof.
  destruct (Validate_result paramsEnvironment paramsFiles paramsPlugin
              (fst (Validate paramsEnvironment paramsFiles paramsPlugin))
              eq_refl) as ((m & Hm & Hk) & Hsrv & _).
  assert (Em : Ok m = Ok (<["B" := "x=y"]>
                            ({[ "A" := "2"; "C" := "3" ]} ∪ {[ "A" := "1" ]})))
    by (rewrite <- Hm; reflexivity).
  injection Em as ->.
  split; [rewrite Hk; reflexivity|]. split; [rewrite Hk; reflexivity|].
  split; [rewrite Hk; reflexivity|]. split; [rewrite Hk; reflexivity|].
  exact Hsrv.
Defined.

Lemma paramsFromEnv_app env l1 l2 m :
  paramsFromEnv env (l1 ++ l2) m
  = match paramsFromEnv env l1 m with
    | (m1, None) => paramsFromEnv env l2 m1
    | failed => failed
    end.
Proof.
  revert m. induction l1 as [|k l1 IH]; intros m; simpl; [reflexivity|].
  destruct (LookupEnv env k); [apply IH|reflexivity].
Qed.

(** X7.  When the token, the server, the flags and the parameters pass,
    [Validate] fails on the first key of [ParamsEnv] that the environment
    does not set, with "param_from_env ... is not set" naming it; the keys
    before it are already written into the mapping it leaves. *)
Theorem Validate_first_unset_key env fs (p : Plugin) before k after m :
  let s := settings p in
  isEmpty (Token s) = false ->
  isEmpty (getServerWithDefaults (Server s) (SystemHost p) (SystemProto p))
  = false ->
  Wait s && LastSuccessful s = false ->
  parseParams fs (Params s) = Ok m ->
  ParamsEnv s = before ++ k :: after ->
  (forall k', k' ∈ before -> is_Some (env !! k')) ->
  env !! k = None ->
  snd (Validate env fs p) = Some (ErrParamFromEnv k)
  /\ Error (ErrParamFromEnv k) = "param_from_env " +:+ k +:+ " is not set"
  /\ forall k', k' ∈ before ->
       params (settings (fst (Validate env fs p))) !! k' = env !! k'.
Proof.
  intros s Ht Hs Hf Hp Hkeys Hset Hk.
  set (m0 := match LookupEnv env "DRONE_BUILD_NUMBER" with
             | Some v => <["DRONE_UPSTREAM_BUILD_NUMBER" := v]> m
             | None => m
             end).
  pose proof (paramsFromEnv_all_set env before m0 Hset) as Hb.
  destruct (paramsFromEnv env before m0) as [m1 err] eqn:Eb. simpl in Hb.
  subst err.
  assert (Hrun : paramsFromEnv env (ParamsEnv s) m0
                 = (m1, Some (ErrParamFromEnv k))).
  { rewrite Hkeys, paramsFromEnv_app, Eb. simpl. unfold LookupEnv.
    rewrite Hk. reflexivity. }
  unfold Validate. fold s. rewrite Ht. simpl. rewrite Hs, Hf, Hp.
  fold m0. rewrite Hrun. simpl.
  split; [reflexivity|]. split; [reflexivity|].
  intros k' Hk'. rewrite (paramsFromEnv_lookup _ _ _ _ k' Eb).
  rewrite bool_decide_eq_true_2 by exact Hk'. reflexivity.
Qed.

Lemma Validate_first_unset_key_witness :
  snd (Validate paramsEnvironment paramsFiles unsetKeyPlugin)
  = Some (ErrParamFromEnv "MISSING").
Proof.
  refine (proj1 (Validate_first_unset_key paramsEnvironment paramsFiles
                   unsetKeyPlugin ["API_KEY"] "MISSING" ["ALSO_MISSING"]
                   {[ "A" := "1" ]}
                   eq_refl eq_refl eq_refl eq_refl eq_refl _ eq_refl)).
  intros k Hk. apply list_elem_of_singleton in Hk as ->. eexists. reflexivity.
Defined.

(** ** Target entries, read back *)

Lemma Split_not_nil sep s : Split sep s <> [].
Proof.
  destruct s as [|c s]; simpl; [discriminate|].
  destruct (Ascii.eqb c sep); [discriminate|].
  destruct (Split sep s); discriminate.
Qed.

Lemma Split_one sep s x : Split sep s = [x] -> x = s /\ occurs sep s = false.
Proof.
  revert x. induction s as [|c s IH]; simpl; intros x H.
  - injection H as <-. split; reflexivity.
  - destruct (Ascii.eqb c sep).
    + injection H as _ H. destruct (Split_not_nil _ _ H).
    + destruct (Split sep s) as [|q [|q' qs]] eqn:E; try discriminate;
        [destruct (Split_not_nil _ _ E)|].
      injection H as <-. destruct (IH q eq_refl) as [-> Hq].
      split; [reflexivity|exact Hq].
Qed.

Lemma Split_two sep s a b :
  Split sep s = [a; b] ->
  s = a +:+ String sep b /\ occurs sep a = false /\ occurs sep b = false.
Proof.
  revert a. induction s as [|c s IH]; simpl; intros a H; [discriminate|].
  destruct (Ascii.eqb c sep) eqn:Ec.
  - injection H as <- H. destruct (Split_one _ _ _ H) as [-> Hb].
    apply Ascii.eqb_eq in Ec as ->. repeat split. exact Hb.
  - destruct (Split sep s) as [|q [|q' [|q'' qs]]] eqn:E; try discriminate.
    injection H as <- <-. destruct (IH q eq_refl) as (Hs & Hq & Hb). subst s.
    simpl. rewrite Ec. repeat split; assumption.
Qed.

(** X8.  An entry that [Execute] accepts (owner and name both non-empty) can
    be read back from what [parseRepoBranch] returns: it is
    [owner/name@branch], with no [@] in any of the three, or it is
    [owner/name] and the branch is empty; owner and name never hold a [/]
    (so an entry with more than one [/] before the selector is rejected). *)
Theorem parseRepoBranch_read_back (entry owner name branch : string) :
  parseRepoBranch entry = (owner, name, branch) ->
  isEmpty owner || isEmpty name = false ->
  occurs "/" owner = false /\ occurs "/" name = false
  /\ ((entry = owner +:+ "/" +:+ name +:+ "@" +:+ branch
       /\ occurs "@" owner = false /\ occurs "@" name = false
       /\ occurs "@" branch = false)
      \/ (entry = owner +:+ "/" +:+ name /\ branch = EmptyString)).
Proof.
  unfold parseRepoBranch. intros H Hacc.
  assert (Hrepo : forall repo, (let '(o, n) :=
                     match Split "/" repo with
                     | [p0; p1] => (p0, p1)
                     | _ => (EmptyString, EmptyString)
                     end in (o, n)) = (owner, name) ->
                   repo = owner +:+ "/" +:+ name
                   /\ occurs "/" owner = false /\ occurs "/" name = false).
  { intros repo Hr.
    destruct (Split "/" repo) as [|p0 [|p1 [|p2 ps]]] eqn:E;
      injection Hr as <- <-; try discriminate.
    exact (Split_two _ _ _ _ E). }
  destruct (Split "@" entry) as [|p0 [|p1 [|p2 ps]]] eqn:E.
  - destruct (Hrepo entry) as (He & Ho & Hn).
    { destruct (Split "/" entry) as [|? [|? [|? ?]]]; congruence. }
    assert (branch = EmptyString) as ->
      by (destruct (Split "/" entry) as [|? [|? [|? ?]]]; congruence).
    split; [exact Ho|]. split; [exact Hn|]. right. split; [exact He|reflexivity].
  - destruct (Hrepo entry) as (He & Ho & Hn).
    { destruct (Split "/" entry) as [|? [|? [|? ?]]]; congruence. }
    assert (branch = EmptyString) as ->
      by (destruct (Split "/" entry) as [|? [|? [|? ?]]]; congruence).
    split; [exact Ho|]. split; [exact Hn|]. right. split; [exact He|reflexivity].
  - destruct (Split_two _ _ _ _ E) as (He & Hp0 & Hp1).
    destruct (Hrepo p0) as (Hr & Ho & Hn).
    { destruct (Split "/" p0) as [|? [|? [|? ?]]]; congruence. }
    assert (branch = p1) as ->
      by (destruct (Split "/" p0) as [|? [|? [|? ?]]]; congruence).
    split; [exact Ho|]. split; [exact Hn|]. left.
    rewrite Hr in Hp0.
    change (owner +:+ "/" +:+ name) with (owner +:+ String "/" name) in Hp0.
    rewrite occurs_app in Hp0. apply orb_false_elim in Hp0 as [Hao Han].
    split; [|split; [exact Hao|split; [exact Han|exact Hp1]]].
    rewrite He, Hr.
    symmetry. apply (append_assoc owner (String "/" name) (String "@" p1)).
  - destruct (Hrepo entry) as (He & Ho & Hn).
    { destruct (Split "/" entry) as [|? [|? [|? ?]]]; congruence. }
    assert (branch = EmptyString) as ->
      by (destruct (Split "/" entry) as [|? [|? [|? ?]]]; congruence).
    split; [exact Ho|]. split; [exact Hn|]. right. split; [exact He|reflexivity].
Qed.

Lemma parseRepoBranch_read_back_witness :
  "octo/app@feature/x" = "octo" +:+ "/" +:+ "app" +:+ "@" +:+ "feature/x"
  \/ "octo/app@feature/x" = "octo" +:+ "/" +:+ "app".
Proof.
  destruct (parseRepoBranch_read_back "octo/app@feature/x" "octo" "app"
              "feature/x" eq_refl eq_refl) as (_ & _ & [(H & _)|(H & _)]).
  - left. exact H.
  - right. exact H.
Defined.

(** ** The parameter echo *)

Lemma existsb_eqb_elem k (l : list string) :
  existsb (String.eqb k) l = bool_decide (k ∈ l).
Proof.
  induction l as [|e l IH]; simpl; [reflexivity|].
  rewrite IH. destruct (String.eqb_spec k e) as [->|Hne]; simpl.
  - symmetry. apply bool_decide_eq_true_2. left.
  - apply bool_decide_ext. rewrite elem_of_cons. tauto.
Qed.

(** X9.  [logParams] prints nothing for an empty mapping; otherwise it
    prints the heading and then one line per key of the mapping, and the
    line of a key shows its value unless the key is listed in [paramsEnv],
    in which case it shows [[from-environment]] instead. *)
Theorem logParams_lines (args : gmap string string) (paramsEnv : list string) :
  (args = ∅ -> logParams args paramsEnv = [])
  /\ (args <> ∅ ->
      exists lines,
        logParams args paramsEnv = "  with params:" :: lines
        /\ length lines = size args
        /\ forall line,
             line ∈ lines
             <-> exists k v,
                   args !! k = Some v
                   /\ line = "  - " +:+ k +:+ ": "
                             +:+ (if bool_decide (k ∈ paramsEnv)
                                  then "[from-environment]" else v)).
Proof.
  unfold logParams. split.
  - intros ->. rewrite map_size_empty. reflexivity.
  - intros Hne. apply map_size_non_empty_iff in Hne.
    destruct (size args) as [|n] eqn:En; [contradiction|]. simpl.
    eexists. split; [reflexivity|]. split.
    + rewrite length_map, length_map_to_list. exact En.
    + intros line. rewrite list_elem_of_In, in_map_iff. split.
      * intros ([k v] & <- & Hin). apply list_elem_of_In in Hin.
        apply elem_of_map_to_list in Hin. exists k, v.
        split; [exact Hin|]. unfold logLine. simpl.
        rewrite existsb_eqb_elem. reflexivity.
      * intros (k & v & Hkv & ->). exists (k, v). split.
        -- unfold logLine. simpl. rewrite existsb_eqb_elem. reflexivity.
        -- apply list_elem_of_In, elem_of_map_to_list. exact Hkv.
Qed.

Lemma logParams_lines_witness :
  exists lines,
    logParams {[ "A" := "1"; "API_KEY" := "hunter2" ]} ["API_KEY"]
    = "  with params:" :: lines
    /\ "  - API_KEY: [from-environment]" ∈ lines
    /\ "  - A: 1" ∈ lines.
Proof.
  destruct (proj2 (logParams_lines {[ "A" := "1"; "API_KEY" := "hunter2" ]}
                     ["API_KEY"])) as (lines & Hl & _ & Hin).
  - intros H. apply (f_equal (fun m : gmap string string => m !! "A")) in H.
    discriminate.
  - exists lines. split; [exact Hl|]. split.
    + apply Hin. exists "API_KEY", "hunter2". split; reflexivity.
    + apply Hin. exists "A", "1". split; reflexivity.
Defined.

(** X10.  The value of a key listed in [paramsEnv] does not reach the
    output: two mappings that differ only in that value give the same
    lines. *)
Theorem logParams_hides_environment_values
    (args : gmap string string) (paramsEnv : list string) (k v v' : string) :
  k ∈ paramsEnv ->
  logParams (<[k := v]> args) paramsEnv
  ≡ₚ logParams (<[k := v']> args) paramsEnv.
Proof.
  intros Hk. unfold logParams.
  rewrite <- (insert_delete_eq args k v), <- (insert_delete_eq args k v').
  rewrite !map_size_insert_None by apply lookup_delete_eq. simpl.
  constructor.
  rewrite !(Permutation_map _ (map_to_list_insert _ _ _ (lookup_delete_eq _ _))).
  simpl. unfold logLine at 1 3. simpl. rewrite existsb_eqb_elem.
  rewrite bool_decide_eq_true_2 by exact Hk. reflexivity.
Qed.

Lemma logParams_hides_environment_values_witness :
  logParams {[ "A" := "1"; "API_KEY" := "hunter2" ]} ["API_KEY"]
  ≡ₚ logParams {[ "A" := "1"; "API_KEY" := "other" ]} ["API_KEY"].
Proof.
  refine (logParams_hides_environment_values {[ "A" := "1" ]} ["API_KEY"]
            "API_KEY" "hunter2" "other" _).
  apply list_elem_of_singleton. reflexivity.
Defined.

(** ** The blocking loop, further *)

Section BlockingMore.
Context {W : Type}.
Variable client : Client W.
Variables namespace name : string.
Variable buildNumber : Z.

Local Abbreviation block := (blockUntilBuildIsFinished client namespace name buildNumber).
Local Abbreviation statusFetch := (mkInvocation (CBuild namespace name buildNumber)).

(** X11.  A status fetch of the blocking loop that succeeds, after any
    number of selects that left the loop running: a build that passed ends
    the loop with nil; a build in error, killed, failing, declined or
    skipped ends it with "did not succeed" carrying the build number and
    that status; any other status (pending, running, or one the plugin does
    not know) leaves the loop running on the selects that follow.  The two
    returns close the channel of the call. *)
Theorem block_status_outcomes pre rest build w' (st st' : State W) :
  block pre st = (Parked, st') ->
  GetBuild client namespace name buildNumber (world st') = (Ok build, w') ->
  let fetched := mkState w' (calls st' ++ [statusFetch true]) (closedSigs st') in
  let closed :=
    mkState w' (calls st' ++ [statusFetch true]) (S (closedSigs st')) in
  let run := block (pre ++ BlockTick :: rest) st in
  (BuildStatus build = StatusPassing -> run = (Nil, closed))
  /\ (BuildStatus build ∈ [StatusError; StatusKilled; StatusFailing;
                           StatusDeclined; StatusSkipped] ->
      run = (Failure (ErrDidNotSucceed buildNumber (BuildStatus build)), closed))
  /\ (BuildStatus build ∉ [StatusPassing; StatusError; StatusKilled;
                           StatusFailing; StatusDeclined; StatusSkipped] ->
      run = block rest fetched).
Proof.
  intros Hpre Hget fetched closed run. subst run.
  rewrite (block_app _ _ _ _ _ (BlockTick :: rest) _ _ Hpre). simpl. unfold_run.
  rewrite Hget. fold fetched. reduce_run.
  split; [|split].
  - intros ->. reflexivity.
  - intros Hin. repeat (apply elem_of_cons in Hin as [Hin|Hin]);
      try (rewrite Hin; reflexivity).
    apply elem_of_nil in Hin. contradiction.
  - intros Hnot. destruct (BuildStatus build); try reflexivity;
      exfalso; apply Hnot; repeat first [left|right].
Qed.

(** X12.  When the deadline of the blocking loop fires, after any number of
    selects that left the loop running, the loop returns "timed out waiting
    for" the build number, and it has made no call but its status fetches:
    in particular the downstream build is not cancelled. *)
Theorem block_timeout pre rest (st st' : State W) :
  block pre st = (Parked, st') ->
  block (pre ++ BlockTimeout_ :: rest) st
  = (Failure (ErrBlockTimedOut buildNumber),
     mkState (world st')
       (calls st ++ replicate (length pre) (statusFetch true))
       (S (closedSigs st)))
  /\ cancels (calls st ++ replicate (length pre) (statusFetch true))
     = cancels (calls st)
  /\ Error (ErrBlockTimedOut buildNumber)
     = "timed out waiting for " +:+ Itoa buildNumber.
Proof.
  intros Hpre. split; [|split; [|reflexivity]].
  - rewrite (block_app _ _ _ _ _ (BlockTimeout_ :: rest) _ _ Hpre). simpl.
    unfold_run. rewrite <- (block_parked_log _ _ _ _ _ _ _ Hpre).
    rewrite (block_parked_sigs _ _ _ _ _ _ _ Hpre). reflexivity.
  - unfold cancels. rewrite List.filter_app, cancels_fetches, app_nil_r.
    reflexivity.
Qed.

(** The form of what the blocking loop adds to the log. *)
Lemma block_log_form evs (st : State W) :
  exists n ok tail,
    calls (snd (block evs st))
    = calls st ++ replicate n (statusFetch true) ++ tail
    /\ (tail = [] \/ tail = [statusFetch false]
        \/ (tail = [mkInvocation (CBuildCancel namespace name buildNumber) ok]
            /\ Signal ∈ evs))
    /\ (n + length tail <= length evs)%nat.
Proof.
  revert st. induction evs as [|ev evs IH]; intros st; simpl.
  - exists 0%nat, true, []. simpl. rewrite app_nil_r.
    split; [reflexivity|]. split; [left; reflexivity|lia].
  - destruct ev; unfold_run.
    + destruct (Nat.eqb (closedSigs st) 0).
      * destruct (BuildCancel client namespace name buildNumber (world st))
          as [[e|] w]; simpl; eexists 0%nat, _, [_]; simpl;
          (split; [reflexivity|]); (split; [|lia]);
          right; right; (split; [reflexivity|left]).
      * exists 0%nat, true, []. simpl. rewrite app_nil_r.
        split; [reflexivity|]. split; [left; reflexivity|lia].
    + exists 0%nat, true, []. simpl. rewrite app_nil_r.
      split; [reflexivity|]. split; [left; reflexivity|lia].
    + destruct (GetBuild client namespace name buildNumber (world st))
        as [[b|e] w]; simpl.
      * assert (Hstop : exists n ok tail,
                   calls st ++ [statusFetch true]
                   = calls st ++ replicate n (statusFetch true) ++ tail
                   /\ (tail = [] \/ tail = [statusFetch false]
                       \/ (tail = [mkInvocation
                                     (CBuildCancel namespace name buildNumber) ok]
                           /\ Signal ∈ BlockTick :: evs))
                   /\ (n + length tail <= S (length evs))%nat).
        { exists 1%nat, true, []. simpl.
          split; [reflexivity|]. split; [left; reflexivity|lia]. }
        destruct (BuildStatus b); try exact Hstop;
          match goal with
          | |- context [blockUntilBuildIsFinished _ _ _ _ evs ?s] =>
              destruct (IH s) as (n & ok & tail & -> & Ht & Hlen)
          end;
          exists (S n), ok, tail; simpl; rewrite <- app_assoc;
          (split; [reflexivity|]); (split; [|lia]);
          (destruct Ht as [Ht|[Ht|[Ht Hs]]];
           [left; exact Ht|right; left; exact Ht
           |right; right; split; [exact Ht|right; exact Hs]]).
      * exists 0%nat, true, [statusFetch false]. simpl.
        split; [reflexivity|]. split; [right; left; reflexivity|lia].
Qed.

(** X13.  Whatever the selects and the server, the blocking loop only
    appends to the log: status fetches of the build it watches, followed by
    at most one cancel request for that build, and that only when a signal
    was received; it makes at most one call per select. *)
Theorem block_log_shape evs (st : State W) :
  exists n ok tail,
    calls (snd (block evs st))
    = calls st ++ replicate n (statusFetch true) ++ tail
    /\ (tail = [] \/ tail = [statusFetch false]
        \/ (tail = [mkInvocation (CBuildCancel namespace name buildNumber) ok]
            /\ Signal ∈ evs))
    /\ (n + length tail <= length evs)%nat.
Proof. exact (block_log_form evs st). Qed.

(** The first of the two returning events decides whether the loop
    returns. *)
Lemma block_returns evs (st : State W) :
  (closedSigs st = 0%nat \/ Signal ∉ evs) ->
  BlockTimeout_ ∈ evs \/ Signal ∈ evs ->
  returned (fst (block evs st)) = true.
Proof.
  revert st. induction evs as [|ev evs IH]; intros st Hs H.
  - destruct H as [H|H]; apply elem_of_nil in H; contradiction.
  - simpl. destruct ev; unfold_run.
    + destruct Hs as [->|Hs]; [|exfalso; apply Hs; left]. simpl.
      destruct (BuildCancel client namespace name buildNumber (world st))
        as [[e|] w]; reflexivity.
    + reflexivity.
    + assert (Hrest : BlockTimeout_ ∈ evs \/ Signal ∈ evs).
      { destruct H as [H|H]; apply elem_of_cons in H as [H|H];
          try discriminate; [left|right]; exact H. }
      destruct (GetBuild client namespace name buildNumber (world st))
        as [[b|e] w]; simpl; [|reflexivity].
      destruct (BuildStatus b); try reflexivity;
        (apply IH; [simpl|exact Hrest]);
        (destruct Hs as [Hs|Hs]; [left; exact Hs|right]);
        intros Hin; apply Hs; right; exact Hin.
Qed.

(** X14.  The first blocking call of the process returns to its caller by
    its deadline or on a signal, whatever the server answers; a later
    blocking call returns by its deadline provided that no signal arrives
    (a signal would find the closed channel of the earlier call and kill the
    process). *)
Theorem block_returns_by_deadline evs (st : State W) :
  (closedSigs st = 0%nat -> BlockTimeout_ ∈ evs \/ Signal ∈ evs ->
   returned (fst (block evs st)) = true)
  /\ (Signal ∉ evs -> BlockTimeout_ ∈ evs ->
      returned (fst (block evs st)) = true).
Proof.
  split.
  - intros Hz H. apply block_returns; [left; exact Hz|exact H].
  - intros Hs H. apply block_returns; [right; exact Hs|left; exact H].
Qed.

End BlockingMore.

Lemma block_status_outcomes_witness :
  blockUntilBuildIsFinished scripted "octo" "app" 8 [BlockTick; BlockTick; BlockTick]
    (triggered8 [RBuild (Ok pending8);
                 RBuild (Ok (mkBuild 8 StatusKilled "main"))])
  = (Failure (ErrDidNotSucceed 8 StatusKilled),
     mkState []
       [mkInvocation (CBuildLast "octo" "app" "main") true;
        mkInvocation (CBuildRestart "octo" "app" 7 ∅) true;
        mkInvocation (CBuild "octo" "app" 8) true;
        mkInvocation (CBuild "octo" "app" 8) true] 1).
Proof.
  refine (proj1 (proj2
    (block_status_outcomes scripted "octo" "app" 8 [BlockTick] [BlockTick]
       (mkBuild 8 StatusKilled "main") []
       (triggered8 [RBuild (Ok pending8);
                    RBuild (Ok (mkBuild 8 StatusKilled "main"))])
       (mkState [RBuild (Ok (mkBuild 8 StatusKilled "main"))]
          (calls (triggered8 []) ++ [mkInvocation (CBuild "octo" "app" 8) true])
          0)
       eq_refl eq_refl)) _).
  right. left.
Defined.

Lemma block_timeout_witness :
  blockUntilBuildIsFinished scripted "octo" "app" 8
    [BlockTick; BlockTimeout_; BlockTick]
    (triggered8 [RBuild (Ok running8); RBuild (Ok passing7)])
  = (Failure (ErrBlockTimedOut 8),
     mkState [RBuild (Ok passing7)]
       [mkInvocation (CBuildLast "octo" "app" "main") true;
        mkInvocation (CBuildRestart "octo" "app" 7 ∅) true;
        mkInvocation (CBuild "octo" "app" 8) true] 1).
Proof.
  exact (proj1
    (block_timeout scripted "octo" "app" 8 [BlockTick] [BlockTick]
       (triggered8 [RBuild (Ok running8); RBuild (Ok passing7)])
       (mkState [RBuild (Ok passing7)]
          (calls (triggered8 []) ++ [mkInvocation (CBuild "octo" "app" 8) true])
          0)
       eq_refl)).
Defined.

Lemma block_returns_by_deadline_witness :
  returned (fst (blockUntilBuildIsFinished scripted "octo" "app" 8
                   [BlockTick; Signal]
                   (triggered8 [RBuild (Ok running8); RCancel None])))
  = true
  /\ returned (fst (blockUntilBuildIsFinished scripted "octo" "lib" 4
                      [BlockTick; BlockTick; BlockTimeout_]
                      (triggered4 [RBuild (Ok (mkBuild 4 StatusRunning ""));
                                   RBuild (Ok (mkBuild 4 StatusRunning ""))])))
     = true.
Proof.
  split.
  - apply (proj1 (block_returns_by_deadline scripted "octo" "app" 8
                    [BlockTick; Signal]
                    (triggered8 [RBuild (Ok running8); RCancel None])));
      [reflexivity|right; right; left].
  - apply (proj2 (block_returns_by_deadline scripted "octo" "lib" 4
                    [BlockTick; BlockTick; BlockTimeout_]
                    (triggered4 [RBuild (Ok (mkBuild 4 StatusRunning ""));
                                 RBuild (Ok (mkBuild 4 StatusRunning ""))]))).
    + intros H. repeat (apply elem_of_cons in H as [H|H]; [discriminate|]).
      apply elem_of_nil in H. contradiction.
    + right. right. left.
Defined.

(** ** The trigger loop, further *)

Section TriggerMore.
Context {W : Type}.
Variable client : Client W.
Variable p : Plugin.
Variables entry owner name branch : string.

Local Abbreviation lastFetch := (mkInvocation (CBuildLast owner name branch)).
Local Abbreviation tick := (onTick client p entry owner name branch).
Local Abbreviation loop := (pollLoop client p entry owner name branch).

(** What the loop makes of the way a tick ends. *)
Lemma pollLoop_tick bevs evs waiting (st : State W) :
  loop bevs (PollTick :: evs) waiting st
  = match fst (tick bevs waiting st) with
    | Continue waiting' => loop bevs evs waiting' (snd (tick bevs waiting st))
    | BreakI => (Nil, snd (tick bevs waiting st))
    | Return err => (Failure err, snd (tick bevs waiting st))
    | Park => (Parked, snd (tick bevs waiting st))
    | Panic => (Panicked, snd (tick bevs waiting st))
    end.
Proof.
  simpl. unfold_run.
  destruct (onTick _ _ _ _ _ _ _ _ _) as [[w'| |e| |] st']; reflexivity.
Qed.

(** X15.  Plain rebuild under [Wait] against a server on which the latest
    build is running or pending at every fetch: however many ticks come
    before the deadline, the loop makes one fetch per tick and no other call,
    so no trigger, and returns "timed out waiting on a build for" the entry
    when the deadline fires. *)
Theorem rebuild_times_out_when_always_busy n rest bevs waiting (st : State W) :
  isEmpty (Deploy (settings p)) = true ->
  Wait (settings p) = true ->
  LastSuccessful (settings p) = false ->
  (forall w, exists b w',
      BuildLast client owner name branch w = (Ok b, w') /\ isBusy b = true) ->
  let r := loop bevs (replicate n PollTick ++ PollTimeout :: rest) waiting st in
  fst r = Failure (ErrTimedOut entry)
  /\ calls (snd r) = calls st ++ replicate n (lastFetch true)
  /\ triggers (calls (snd r)) = triggers (calls st).
Proof.
  intros Hd Hw Hl Hbusy.
  assert (Htick : forall bevs waiting (st : State W),
             exists w', tick bevs waiting st
                        = (Continue true,
                           mkState w' (calls st ++ [lastFetch true]) (closedSigs st))).
  { intros bevs' waiting' st'. unfold onTick, rebuildTick.
    rewrite Hd, Hw, Hl. unfold_run.
    destruct (Hbusy (world st')) as (b & w' & -> & Hb). reduce_run.
    rewrite Hb. exists w'. destruct waiting'; reflexivity. }
  assert (Hrun : forall n waiting (st : State W),
             let r := loop bevs (replicate n PollTick ++ PollTimeout :: rest)
                        waiting st in
             fst r = Failure (ErrTimedOut entry)
             /\ calls (snd r) = calls st ++ replicate n (lastFetch true)).
  { clear n waiting st. induction n as [|n IH]; intros waiting st.
    - simpl. rewrite app_nil_r. split; reflexivity.
    - cbn zeta. change (replicate (S n) PollTick ++ PollTimeout :: rest)
        with (PollTick :: (replicate n PollTick ++ PollTimeout :: rest)).
      rewrite pollLoop_tick. destruct (Htick bevs waiting st) as [w' ->].
      cbn [fst snd]. destruct (IH true (mkState w' (calls st ++ [lastFetch true]) (closedSigs st)))
        as [H1 H2].
      split; [exact H1|]. rewrite H2. cbn [calls]. rewrite <- app_assoc.
      reflexivity. }
  intros r. destruct (Hrun n waiting st) as [H1 H2].
  split; [exact H1|]. split; [exact H2|]. subst r. rewrite H2.
  unfold triggers. rewrite List.filter_app.
  replace (List.filter (fun i => isTrigger (op i)) (replicate n (lastFetch true)))
    with (@nil Invocation); [apply app_nil_r|].
  clear. induction n as [|n IH]; simpl; [reflexivity|exact IH].
Qed.

(** X16.  Without [Wait] the first tick decides: it never ends in
    [continue], so the result of the loop does not depend on the selects
    that follow it, and the deadline of the trigger loop plays no part. *)
Theorem without_wait_first_tick_decides bevs evs evs' (st : State W) :
  Wait (settings p) = false ->
  (forall waiting', fst (tick bevs false st) <> Continue waiting')
  /\ loop bevs (PollTick :: evs) false st = loop bevs (PollTick :: evs') false st.
Proof.
  intros Hw.
  assert (Hc : forall waiting', fst (tick bevs false st) <> Continue waiting').
  { intros waiting'. unfold onTick, rebuildTick. rewrite Hw. unfold_run.
    case_run; simpl; try discriminate;
      match goal with
      | |- context [afterTrigger _ _ _ _ ?nb ?es ?s] =>
          destruct (afterTrigger_log client p owner name nb es s)
            as (_ & _ & _ & Hc); apply Hc
      end. }
  split; [exact Hc|]. rewrite !pollLoop_tick.
  destruct (fst (tick bevs false st)) as [w'| |e| |]; try reflexivity.
  destruct (Hc w' eq_refl).
Qed.

(** X17.  The waiting flag is never reset, and it is only ever set under
    [Wait]: a tick that ends in [continue] leaves the flag set, and either
    it was set already or [Wait] is on. *)
Theorem waiting_flag_only_rises bevs waiting waiting' (st : State W) :
  fst (tick bevs waiting st) = Continue waiting' ->
  waiting' = true /\ (waiting = true \/ Wait (settings p) = true).
Proof.
  unfold onTick, rebuildTick. unfold_run.
  destruct waiting; destruct (Wait (settings p));
    case_run; simpl; intros H; try discriminate;
      try (injection H as <-; split; [reflexivity|tauto]);
      try (exfalso;
           match goal with
           | Hf : firstPassing _ _ = Some ?b, Hb : negb (isBusy ?b) = false |- _ =>
               apply firstPassing_some in Hf as [_ Hf];
               rewrite (isBusy_passing _ Hf) in Hb; discriminate
           | Hf : isBusy ?b = false, Hb : negb (isBusy ?b) = false |- _ =>
               rewrite Hf in Hb; discriminate
           end);
      match type of H with
      | context [afterTrigger _ _ _ _ ?nb ?es ?s] =>
          destruct (afterTrigger_log client p owner name nb es s)
            as (? & ? & ? & Hc); destruct (Hc _ H)
      end.
Qed.

(** A blocking loop that returns nil has made a call, and its last call
    succeeded. *)
Lemma block_nil_last ns repo number evs (st st' : State W) :
  blockUntilBuildIsFinished client ns repo number evs st = (Nil, st') ->
  exists i, last (calls st') = Some i /\ succeeded i = true.
Proof.
  revert st. induction evs as [|ev evs IH]; intros st; simpl; [discriminate|].
  destruct ev; unfold_run.
  - destruct (Nat.eqb (closedSigs st) 0); [|discriminate].
    destruct (BuildCancel client ns repo number (world st)) as [[e|] w];
      [discriminate|]. intros [= <-]. simpl. rewrite last_snoc.
    eexists. split; reflexivity.
  - discriminate.
  - destruct (GetBuild client ns repo number (world st)) as [[b|e] w];
      simpl; [|discriminate].
    destruct (BuildStatus b); try discriminate; try apply IH.
    intros [= <-]. simpl. rewrite last_snoc. eexists. split; reflexivity.
Qed.

(** After a trigger that succeeded, a tick whose last call failed returns an
    error. *)
Lemma afterTrigger_failed_last newBuild bevs (st : State W) t i :
  last (calls st) = Some t -> succeeded t = true ->
  last (calls (snd (afterTrigger client p owner name newBuild bevs st))) = Some i ->
  succeeded i = false ->
  exists e, fst (afterTrigger client p owner name newBuild bevs st) = Return e.
Proof.
  intros Ht Hok. unfold afterTrigger. destruct (Block (settings p)).
  - unfold_run.
    destruct (blockUntilBuildIsFinished client owner name (Number newBuild) bevs st)
      as [[|e| |] st'] eqn:Eb; simpl; intros Hi Hfail.
    + destruct (block_nil_last _ _ _ _ _ _ Eb) as (j & Hj & Hjok). congruence.
    + eexists. reflexivity.
    + exfalso. revert Hi.
      destruct (block_stuck_log client owner name (Number newBuild) bevs st)
        as [k Hk]; [rewrite Eb; reflexivity|].
      rewrite Eb in Hk. simpl in Hk. rewrite Hk. clear Hk.
      destruct k as [|k]; simpl.
      * rewrite app_nil_r. congruence.
      * change (mkInvocation (CBuild owner name (Number newBuild)) true
                :: replicate k
                     (mkInvocation (CBuild owner name (Number newBuild)) true))
          with (replicate (S k)
                  (mkInvocation (CBuild owner name (Number newBuild)) true)).
        rewrite replicate_S_end, app_assoc, last_snoc. intros [= <-].
        discriminate.
    + exfalso. revert Hi.
      destruct (block_stuck_log client owner name (Number newBuild) bevs st)
        as [k Hk]; [rewrite Eb; reflexivity|].
      rewrite Eb in Hk. simpl in Hk. rewrite Hk. clear Hk.
      destruct k as [|k]; simpl.
      * rewrite app_nil_r. congruence.
      * change (mkInvocation (CBuild owner name (Number newBuild)) true
                :: replicate k
                     (mkInvocation (CBuild owner name (Number newBuild)) true))
          with (replicate (S k)
                  (mkInvocation (CBuild owner name (Number newBuild)) true)).
        rewrite replicate_S_end, app_assoc, last_snoc. intros [= <-].
        discriminate.
  - simpl. intros Hi Hfail. congruence.
Qed.

(** X18.  What becomes of a failed call.  When the last call a tick makes
    failed, the tick either returns an error, or ends in [continue]; and it
    ends in [continue] only if the waiting flag was set and the call was the
    fetch of the latest build or a trigger.  A tick never ends in
    [break I], nor stays in a select, on a failed call; and a failed fetch
    of the build list or of a build by number is an error even while
    waiting. *)
Theorem failed_call_outcome bevs waiting (st : State W) i :
  last (calls (snd (tick bevs waiting st))) = Some i ->
  succeeded i = false ->
  (exists e, fst (tick bevs waiting st) = Return e)
  \/ (fst (tick bevs waiting st) = Continue true
      /\ waiting = true
      /\ (op i = CBuildLast owner name branch \/ isTrigger (op i) = true)).
Proof.
  intros Hlast Hfail. revert Hlast.
  unfold onTick, rebuildTick. unfold_run.
  split_run; simpl;
    try (rewrite last_snoc; intros [= <-]; simpl in Hfail;
         first [discriminate
               | left; eexists; reflexivity
               | right; split; [reflexivity|split; [reflexivity|]];
                 first [left; reflexivity|right; reflexivity]]);
    intros Hl; left;
    match type of Hl with
    | last (calls (snd (afterTrigger _ _ _ _ ?nb ?es ?s))) = _ =>
        eapply (afterTrigger_failed_last nb es s _ i);
        [simpl; apply last_snoc|reflexivity|exact Hl|exact Hfail]
    end.
Qed.

End TriggerMore.

Lemma rebuild_times_out_when_always_busy_witness :
  fst (pollLoop alwaysRunning rebuildWait "octo/app@main" "octo" "app" "main" []
         [PollTick; PollTick; PollTick; PollTimeout] false (start 0%nat))
  = Failure (ErrTimedOut "octo/app@main")
  /\ calls (snd (pollLoop alwaysRunning rebuildWait "octo/app@main" "octo" "app"
                   "main" [] [PollTick; PollTick; PollTick; PollTimeout] false
                   (start 0%nat)))
     = replicate 3 (mkInvocation (CBuildLast "octo" "app" "main") true).
Proof.
  destruct (rebuild_times_out_when_always_busy alwaysRunning rebuildWait
              "octo/app@main" "octo" "app" "main" 3 [] [] false (start 0%nat)
              eq_refl eq_refl eq_refl) as (H1 & H2 & _).
  - intros w. eexists _, _. split; reflexivity.
  - split; [exact H1|exact H2].
Defined.

Lemma without_wait_first_tick_decides_witness :
  pollLoop scripted rebuildLast "octo/app@main" "octo" "app" "main" []
    [PollTick] false (start [RBuild (Ok passing7); RBuild (Ok pending8)])
  = pollLoop scripted rebuildLast "octo/app@main" "octo" "app" "main" []
      [PollTick; PollTick; PollTimeout] false
      (start [RBuild (Ok passing7); RBuild (Ok pending8)]).
Proof.
  exact (proj2 (without_wait_first_tick_decides scripted rebuildLast
                  "octo/app@main" "octo" "app" "main" [] [] [PollTick; PollTimeout]
                  (start [RBuild (Ok passing7); RBuild (Ok pending8)]) eq_refl)).
Defined.

Lemma waiting_flag_only_rises_witness :
  fst (onTick scripted rebuildWait "octo/app@main" "octo" "app" "main" [] false
         (start [RBuild (Ok running7)])) = Continue true
  /\ Wait (settings rebuildWait) = true.
Proof.
  split; [reflexivity|].
  destruct (waiting_flag_only_rises scripted rebuildWait
              "octo/app@main" "octo" "app" "main" [] false true
              (start [RBuild (Ok running7)]) eq_refl) as [_ [H|H]].
  - discriminate.
  - exact H.
Defined.

Lemma failed_call_outcome_witness :
  (exists e,
     fst (onTick scripted deployWait "octo/app@42" "octo" "app" "42" [] true
            (start [RBuild (Err badGateway)])) = Return e)
  /\ fst (onTick scripted rebuildWait "octo/app@main" "octo" "app" "main" [] true
            (start [RBuild (Err badGateway)])) = Continue true.
Proof.
  split.
  - destruct (failed_call_outcome scripted deployWait
                "octo/app@42" "octo" "app" "42" [] true
                (start [RBuild (Err badGateway)])
                (mkInvocation (CBuild "octo" "app" 42) false) eq_refl eq_refl)
      as [H|(H & _)]; [exact H|discriminate].
  - destruct (failed_call_outcome scripted rebuildWait
                "octo/app@main" "octo" "app" "main" [] true
                (start [RBuild (Err badGateway)])
                (mkInvocation (CBuildLast "octo" "app" "main") false)
                eq_refl eq_refl)
      as [(e & H)|(H & _)]; [discriminate|exact H].
Defined.

(** ** Triggers of a run *)

Section TriggerCounts.
Context {W : Type}.
Variable client : Client W.
Variable p : Plugin.

Lemma fired_app l1 l2 : fired (l1 ++ l2) = fired l1 ++ fired l2.
Proof. apply List.filter_app. Qed.

Lemma fired_none l :
  Forall (fun i => isTrigger (op i) = false) l -> fired l = [].
Proof.
  induction 1 as [|i l Hi _ IH]; [reflexivity|].
  unfold fired in *. simpl. rewrite Hi. exact IH.
Qed.

(** Blocking after a trigger adds no trigger to the log. *)
Lemma afterTrigger_fired owner name nb bevs w c (base l0 : list Invocation) t :
  fired l0 = [t] ->
  let r := afterTrigger client p owner name nb bevs (mkState w (base ++ l0) c) in
  exists l,
    calls (snd r) = base ++ l
    /\ fired l = [t]
    /\ forall w', fst r <> Continue w'.
Proof.
  intros H0 r.
  destruct (afterTrigger_log client p owner name nb bevs (mkState w (base ++ l0) c))
    as (l & Hlog & Hno & Hc).
  exists (l0 ++ l). subst r. rewrite Hlog. simpl. rewrite <- app_assoc.
  split; [reflexivity|]. split; [|exact Hc].
  rewrite fired_app, (fired_none _ Hno), app_nil_r. exact H0.
Qed.

(** What a tick adds to the log holds no trigger that went through when the
    tick ends in [continue], one when it ends in [break I], and at most one
    in any case; and that one is a trigger of the repository of the tick. *)
Lemma onTick_fired_repo entry owner name branch bevs waiting (st : State W) :
  let r := onTick client p entry owner name branch bevs waiting st in
  exists l,
    calls (snd r) = calls st ++ l
    /\ (firedRepos l = [] \/ firedRepos l = [(owner, name)])
    /\ (forall w', fst r = Continue w' -> firedRepos l = [])
    /\ (fst r = BreakI -> firedRepos l = [(owner, name)]).
Proof.
  cbn zeta. unfold onTick, rebuildTick. unfold_run.
  split_run; simpl;
    try (eexists; split; [rewrite <- ?app_assoc; simpl; reflexivity|];
         simpl; repeat split;
         first [left; reflexivity|right; reflexivity|discriminate|reflexivity]);
    rewrite <- ?app_assoc; simpl;
    match goal with
    | |- context [afterTrigger _ _ _ _ ?nb ?es (mkState ?w (calls st ++ ?l0) ?c)] =>
        destruct (afterTrigger_fired owner name nb es w c (calls st) l0 _ eq_refl)
          as (l & Hlog & Hone & Hc);
        exists l; split; [exact Hlog|]; unfold firedRepos; rewrite Hone;
        repeat split;
        first [right; reflexivity|reflexivity
              |intros w' Hw'; destruct (Hc _ Hw')]
    end.
Qed.

Lemma firedRepos_length l : length (firedRepos l) = length (fired l).
Proof. apply length_map. Qed.

Lemma onTick_fired entry owner name branch bevs waiting (st : State W) :
  let r := onTick client p entry owner name branch bevs waiting st in
  exists l,
    calls (snd r) = calls st ++ l
    /\ (length (fired l) <= 1)%nat
    /\ (forall w', fst r = Continue w' -> fired l = [])
    /\ (fst r = BreakI -> length (fired l) = 1%nat).
Proof.
  cbn zeta.
  destruct (onTick_fired_repo entry owner name branch bevs waiting st)
    as (l & Hl & Hle & Hcont & Hbreak).
  exists l. split; [exact Hl|]. rewrite <- firedRepos_length.
  split; [destruct Hle as [-> | ->]; simpl; lia|]. split.
  - intros w' Hw'. pose proof (f_equal length (Hcont _ Hw')) as Hz.
    rewrite firedRepos_length in Hz. destruct (fired l); [reflexivity|discriminate].
  - intros Hb. rewrite (Hbreak Hb). reflexivity.
Qed.

(** X19.  One target is never triggered twice with success: whatever the
    selects and the server, the calls the trigger loop adds to the log hold
    at most one trigger that returned a build, and exactly one when the loop
    ends with nil. *)
Theorem pollLoop_triggers_once entry owner name branch bevs evs waiting
    (st : State W) :
  let r := pollLoop client p entry owner name branch bevs evs waiting st in
  exists l,
    calls (snd r) = calls st ++ l
    /\ (length (fired l) <= 1)%nat
    /\ (fst r = Nil -> length (fired l) = 1%nat).
Proof.
  cbn zeta. revert waiting st. induction evs as [|ev evs IH]; intros waiting st.
  - exists []. simpl. rewrite app_nil_r. repeat split; [lia|discriminate].
  - destruct ev.
    + exists []. simpl. rewrite app_nil_r. repeat split; [lia|discriminate].
    + rewrite pollLoop_tick.
      destruct (onTick_fired entry owner name branch bevs waiting st)
        as (l & Hl & Hle & Hcont & Hbreak).
      destruct (fst (onTick client p entry owner name branch bevs waiting st))
        as [w'| |e| |] eqn:Et.
      * destruct (IH w' (snd (onTick client p entry owner name branch bevs
                                waiting st))) as (l' & Hl' & Hle' & Hnil').
        exists (l ++ l'). rewrite Hl', Hl, <- app_assoc, fired_app.
        rewrite (Hcont w' eq_refl). simpl.
        split; [reflexivity|]. split; [exact Hle'|exact Hnil'].
      * exists l. split; [exact Hl|]. split; [exact Hle|].
        intros _. exact (Hbreak eq_refl).
      * exists l. split; [exact Hl|]. split; [exact Hle|discriminate].
      * exists l. split; [exact Hl|]. split; [exact Hle|discriminate].
      * exists l. split; [exact Hl|]. split; [exact Hle|discriminate].
Qed.

(** The trigger loop of a target triggers no other repository. *)
Lemma pollLoop_fired_repo entry owner name branch bevs evs waiting
    (st : State W) :
  let r := pollLoop client p entry owner name branch bevs evs waiting st in
  exists l,
    calls (snd r) = calls st ++ l
    /\ (firedRepos l = [] \/ firedRepos l = [(owner, name)])
    /\ (fst r = Nil -> firedRepos l = [(owner, name)]).
Proof.
  cbn zeta. revert waiting st. induction evs as [|ev evs IH]; intros waiting st.
  - exists []. simpl. rewrite app_nil_r. repeat split; [left; reflexivity|discriminate].
  - destruct ev.
    + exists []. simpl. rewrite app_nil_r.
      repeat split; [left; reflexivity|discriminate].
    + rewrite pollLoop_tick.
      destruct (onTick_fired_repo entry owner name branch bevs waiting st)
        as (l & Hl & Hle & Hcont & Hbreak).
      destruct (fst (onTick client p entry owner name branch bevs waiting st))
        as [w'| |e| |] eqn:Et.
      * destruct (IH w' (snd (onTick client p entry owner name branch bevs
                                waiting st))) as (l' & Hl' & Hle' & Hnil').
        exists (l ++ l'). rewrite Hl', Hl, <- app_assoc.
        unfold firedRepos in *. rewrite fired_app, map_app.
        rewrite (Hcont w' eq_refl). simpl.
        split; [reflexivity|]. split; [exact Hle'|exact Hnil'].
      * exists l. split; [exact Hl|]. split; [exact Hle|].
        intros _. exact (Hbreak eq_refl).
      * exists l. split; [exact Hl|]. split; [exact Hle|discriminate].
      * exists l. split; [exact Hl|]. split; [exact Hle|discriminate].
      * exists l. split; [exact Hl|]. split; [exact Hle|discriminate].
Qed.

Lemma executeEntry_fired_repo entry sched (st : State W) :
  let r := executeEntry client p entry sched st in
  exists l,
    calls (snd r) = calls st ++ l
    /\ (firedRepos l = [] \/ firedRepos l = [targetOf entry])
    /\ (fst r = Nil -> firedRepos l = [targetOf entry]).
Proof.
  cbn zeta. unfold executeEntry, targetOf.
  destruct (parseRepoBranch entry) as [[owner name] branch].
  repeat match goal with
         | |- context [if ?b then _ else _] =>
             destruct b;
             [exists []; simpl; rewrite app_nil_r;
              repeat split; [left; reflexivity|discriminate]|]
         end.
  apply pollLoop_fired_repo.
Qed.

(** X20.  Which repositories a run triggers.  The triggers that returned a
    build are, in the order of the log, triggers of the repositories that a
    leading part of [Repos] names, one trigger for each of its entries in
    their order: no repository that [Repos] does not name is triggered, none
    is triggered twice for one entry, and none is triggered before the
    entries ahead of it have been.  For a run that returns nil the leading
    part is the whole of [Repos]: every target has been triggered once with
    success, neither more nor less. *)
Theorem Execute_triggers_every_target_once scheds (st : State W) :
  let r := Execute client p scheds st in
  exists l served rest,
    calls (snd r) = calls st ++ l
    /\ Repos (settings p) = served ++ rest
    /\ firedRepos l = List.map targetOf served
    /\ (fst r = Nil -> rest = []).
Proof.
  cbn zeta. unfold Execute. generalize (Repos (settings p)) as entries.
  intros entries. revert scheds st.
  induction entries as [|entry entries IH]; intros scheds st.
  - exists [], [], []. simpl. rewrite app_nil_r. repeat split.
  - simpl. unfold_run.
    destruct (executeEntry_fired_repo entry (hd (mkSchedule [] []) scheds) st)
      as (l & Hl & Hle & Hnil).
    destruct (executeEntry client p entry (hd (mkSchedule [] []) scheds) st)
      as [[|e| |] st'] eqn:Ee; simpl in *.
    + destruct (IH (tl scheds) st') as (l' & served & rest & Hl' & Hsplit & Hrepos & Hnil').
      exists (l ++ l'), (entry :: served), rest.
      rewrite Hl', Hl, <- app_assoc. unfold firedRepos in *.
      rewrite fired_app, map_app, (Hnil eq_refl), Hrepos.
      split; [reflexivity|]. split; [rewrite Hsplit; reflexivity|].
      split; [reflexivity|exact Hnil'].
    + destruct Hle as [Hz|Ho].
      * exists l, [], (entry :: entries). repeat split; [exact Hl|exact Hz|discriminate].
      * exists l, [entry], entries. repeat split; [exact Hl|exact Ho|discriminate].
    + destruct Hle as [Hz|Ho].
      * exists l, [], (entry :: entries). repeat split; [exact Hl|exact Hz|discriminate].
      * exists l, [entry], entries. repeat split; [exact Hl|exact Ho|discriminate].
    + destruct Hle as [Hz|Ho].
      * exists l, [], (entry :: entries). repeat split; [exact Hl|exact Hz|discriminate].
      * exists l, [entry], entries. repeat split; [exact Hl|exact Ho|discriminate].
Qed.

End TriggerCounts.

(** ** The two paths of a tick *)

Section Paths.
Context {W : Type}.
Variable client : Client W.
Variable p : Plugin.
Variables entry owner name branch : string.

Local Abbreviation lastFetch := (mkInvocation (CBuildLast owner name branch)).
Local Abbreviation listFetch := (mkInvocation (CBuildList owner name)).

Lemma firstPassing_first pre good post :
  Forall (fun b => ~ (Source b = branch /\ BuildStatus b = StatusPassing)) pre ->
  Source good = branch -> BuildStatus good = StatusPassing ->
  firstPassing branch (pre ++ good :: post) = Some good.
Proof.
  intros Hpre Hs Hp. unfold firstPassing.
  induction Hpre as [|b pre Hb _ IH]; simpl.
  - rewrite !bool_decide_eq_true_2 by assumption. reflexivity.
  - destruct (bool_decide (Source b = branch)) eqn:E1;
      destruct (bool_decide (BuildStatus b = StatusPassing)) eqn:E2; simpl;
      try exact IH.
    exfalso. apply Hb.
    split; [exact (bool_decide_eq_true_1 _ E1)|exact (bool_decide_eq_true_1 _ E2)].
Qed.

(** X21.  Plain rebuild under [LastSuccessful] (without [Wait] and
    [Block]): when the latest build of the branch passed, it is restarted,
    and the build list is not fetched; when it did not, the list is fetched
    and the first build of the list that is on the branch and passed is
    restarted, whatever comes after it in the list.  Either way the first
    tick ends the loop with nil. *)
Theorem rebuild_lastSuccessful_restarts sched rest latest newBuild (w0 w1 : W) :
  parseRepoBranch entry = (owner, name, branch) ->
  isEmpty owner = false -> isEmpty name = false ->
  isEmpty (Deploy (settings p)) = true ->
  LastSuccessful (settings p) = true ->
  Wait (settings p) = false ->
  Block (settings p) = false ->
  BuildLast client owner name branch w0 = (Ok latest, w1) ->
  let run := executeEntry client p entry
               (mkSchedule (PollTick :: rest) (blocking sched)) (start w0) in
  let restart n :=
    mkInvocation (CBuildRestart owner name n (params (settings p))) true in
  (forall w2,
     BuildStatus latest = StatusPassing ->
     BuildRestart client owner name (Number latest) (params (settings p)) w1
     = (Ok newBuild, w2) ->
     run = (Nil, mkState w2 [lastFetch true; restart (Number latest)] 0))
  /\ (forall pre good post w2 w3,
        BuildStatus latest <> StatusPassing ->
        BuildList client owner name w1 = (Ok (pre ++ good :: post), w2) ->
        Forall (fun b => ~ (Source b = branch /\ BuildStatus b = StatusPassing))
          pre ->
        Source good = branch -> BuildStatus good = StatusPassing ->
        BuildRestart client owner name (Number good) (params (settings p)) w2
        = (Ok newBuild, w3) ->
        run = (Nil, mkState w3 [lastFetch true; listFetch true;
                                restart (Number good)] 0)).
Proof.
  intros Hparse Ho Hn Hd Hl Hw Hb H1 run restart. subst run.
  unfold executeEntry. rewrite Hparse, Ho, Hn, Hd. simpl. unfold_run.
  unfold onTick, rebuildTick, afterTrigger. rewrite Hd, Hl, Hw, Hb. unfold_run.
  rewrite H1. reduce_run. split.
  - intros w2 Hp Hr. rewrite (bool_decide_eq_true_2 _ Hp). reduce_run.
    rewrite orb_true_r. reduce_run. rewrite Hr. reflexivity.
  - intros pre good post w2 w3 Hnp Hlist Hpre Hs Hp Hr.
    rewrite (bool_decide_eq_false_2 _ Hnp). reduce_run.
    rewrite Hlist. reduce_run.
    rewrite (firstPassing_first pre good post Hpre Hs Hp). reduce_run.
    rewrite orb_true_r. reduce_run. rewrite Hr. reflexivity.
Qed.

(** The blocking a tick ends with makes no call of the plain-rebuild part
    and no promote. *)
Lemma afterTrigger_ops nb bevs (st : State W) :
  exists l,
    calls (snd (afterTrigger client p owner name nb bevs st)) = calls st ++ l
    /\ Forall (fun i => isRebuildCall (op i) = false) l
    /\ Forall (fun i => isPromote (op i) = false) l.
Proof.
  unfold afterTrigger. destruct (Block (settings p)).
  - unfold_run.
    destruct (block_log_form client owner name (Number nb) bevs st)
      as (n & ok & tail & Hlog & Ht & _).
    destruct (blockUntilBuildIsFinished client owner name (Number nb) bevs st)
      as [[|e| |] st']; simpl in *; eexists; (split; [exact Hlog|]);
      (split; apply Forall_app; (split; [apply Forall_replicate; reflexivity|]);
       destruct Ht as [->|[->|[-> _]]]; repeat constructor).
  - exists []. simpl. rewrite app_nil_r. repeat split; constructor.
Qed.

(** X22.  Each path uses its own calls.  Without [Deploy] a tick never
    promotes.  With [Deploy], a tick that starts with the waiting flag unset
    makes no call of the plain-rebuild part: it neither fetches the latest
    build nor restarts one. *)
Theorem tick_keeps_to_its_path bevs waiting (st : State W) :
  exists l,
    calls (snd (onTick client p entry owner name branch bevs waiting st))
    = calls st ++ l
    /\ (isEmpty (Deploy (settings p)) = true ->
        Forall (fun i => isPromote (op i) = false) l)
    /\ (isEmpty (Deploy (settings p)) = false -> waiting = false ->
        Forall (fun i => isRebuildCall (op i) = false) l).
Proof.
  unfold onTick, rebuildTick. unfold_run.
  destruct (isEmpty (Deploy (settings p))) eqn:Hd; destruct waiting;
    case_run; simpl;
    try (exfalso;
         match goal with
         | H1 : Wait _ && isBusy ?b = false,
           H2 : negb (isBusy ?b) || negb (Wait _) = false |- _ =>
             destruct (Wait (settings p)), (isBusy b); discriminate
         end);
    try (eexists; split; [rewrite <- ?app_assoc; simpl; reflexivity|];
         split; intros; try discriminate; repeat constructor);
    rewrite <- ?app_assoc; simpl;
    match goal with
    | |- context [afterTrigger _ _ _ _ ?nb ?es (mkState ?w (calls st ++ ?l0) ?c)] =>
        destruct (afterTrigger_ops nb es (mkState w (calls st ++ l0) c))
          as (l & Hlog & Hr & Hp);
        exists (l0 ++ l); rewrite Hlog; simpl; rewrite <- ?app_assoc; simpl;
        (split; [reflexivity|]);
        split; intros; try discriminate;
        repeat (constructor; [reflexivity|]); assumption
    end.
Qed.

End Paths.

Lemma rebuild_lastSuccessful_restarts_witness :
  executeEntry scripted rebuildLast "octo/app@main"
    (mkSchedule [PollTick; PollTimeout] [])
    (start [RBuild (Ok failing7);
            RBuilds (Ok [failing7; mkBuild 6 StatusPassing "develop";
                         mkBuild 5 StatusPassing "main";
                         mkBuild 4 StatusPassing "main"]);
            RBuild (Ok pending8)])
  = (Nil,
     mkState []
       [mkInvocation (CBuildLast "octo" "app" "main") true;
        mkInvocation (CBuildList "octo" "app") true;
        mkInvocation (CBuildRestart "octo" "app" 5 ∅) true] 0).
Proof.
  refine (proj2
    (rebuild_lastSuccessful_restarts scripted rebuildLast
       "octo/app@main" "octo" "app" "main" (mkSchedule [] []) [PollTimeout]
       failing7 pending8
       [RBuild (Ok failing7);
        RBuilds (Ok [failing7; mkBuild 6 StatusPassing "develop";
                     mkBuild 5 StatusPassing "main";
                     mkBuild 4 StatusPassing "main"]);
        RBuild (Ok pending8)]
       [RBuilds (Ok [failing7; mkBuild 6 StatusPassing "develop";
                     mkBuild 5 StatusPassing "main";
                     mkBuild 4 StatusPassing "main"]);
        RBuild (Ok pending8)]
       eq_refl eq_refl eq_refl eq_refl eq_refl eq_refl eq_refl eq_refl)
    [failing7; mkBuild 6 StatusPassing "develop"] (mkBuild 5 StatusPassing "main")
    [mkBuild 4 StatusPassing "main"] [RBuild (Ok pending8)] [] _ eq_refl _
    eq_refl eq_refl eq_refl).
  - discriminate.
  - repeat constructor; intros [Hs Hp]; discriminate.
Defined.

Lemma tick_keeps_to_its_path_witness :
  exists l,
    calls (snd (onTick scripted deployWait "octo/app@42" "octo" "app" "42" [] false
                  (start [RBuild (Ok passing7); RBuild (Ok pending8)])))
    = [] ++ l
    /\ Forall (fun i => isRebuildCall (op i) = false) l.
Proof.
  destruct (tick_keeps_to_its_path scripted deployWait
              "octo/app@42" "octo" "app" "42" [] false
              (start [RBuild (Ok passing7); RBuild (Ok pending8)]))
    as (l & Hl & _ & H).
  exists l. split; [exact Hl|]. apply H; reflexivity.
Defined.

(** ** Checks and fetches of the deploy path *)

Section DeployChecks.
Context {W : Type}.
Variable client : Client W.
Variable p : Plugin.
Variables entry owner name branch : string.

(** With [Deploy] set, an accepted entry is checked before any select
    and any client call: without a selector the run ends with "build no or
    branch must be mentioned for deploy"; with a selector that is not a
    number, and without [LastSuccessful], it ends with "for deploy build no
    must be numeric only ..."; in both cases the log is untouched, whatever
    the schedule.  Any other entry enters the trigger loop with the waiting
    flag unset. *)
Theorem deploy_entry_checks sched (st : State W) :
  parseRepoBranch entry = (owner, name, branch) ->
  isEmpty owner || isEmpty name = false ->
  isEmpty (Deploy (settings p)) = false ->
  let r := executeEntry client p entry sched st in
  (isEmpty branch = true -> r = (Failure ErrDeployNeedsSelector, st))
  /\ (isEmpty branch = false -> LastSuccessful (settings p) = false ->
      snd (Atoi branch) = false -> r = (Failure ErrDeployNumericOnly, st))
  /\ (isEmpty branch = false ->
      LastSuccessful (settings p) = true \/ snd (Atoi branch) = true ->
      r = pollLoop client p entry owner name branch (blocking sched) (poll sched)
            false st).
Proof.
  intros Hparse Hacc Hd r. subst r. unfold executeEntry.
  rewrite Hparse, Hacc, Hd. simpl.
  split; [|split].
  - intros ->. reflexivity.
  - intros -> -> ->. reflexivity.
  - intros -> [ -> | -> ]; simpl; rewrite ?andb_false_r; reflexivity.
Qed.

(** X23.  Deploy by build number: a failed fetch of the reference build
    ends the trigger loop with "unable to get requested build ... for deploy
    for" the entry at any tick, also while waiting, the fetch being the only
    call of the tick; it is not retried. *)
Theorem deploy_number_fetch_error_fatal bevs evs waiting e w' (st : State W) :
  isEmpty (Deploy (settings p)) = false ->
  LastSuccessful (settings p) = false ->
  GetBuild client owner name (fst (Atoi branch)) (world st) = (Err e, w') ->
  pollLoop client p entry owner name branch bevs (PollTick :: evs) waiting st
  = (Failure (ErrRequestedBuild (fst (Atoi branch)) entry),
     mkState w'
       (calls st ++ [mkInvocation (CBuild owner name (fst (Atoi branch))) false]) (closedSigs st))
  /\ Error (ErrRequestedBuild (fst (Atoi branch)) entry)
     = "unable to get requested build " +:+ Itoa (fst (Atoi branch))
       +:+ " for deploy for " +:+ entry.
Proof.
  intros Hd Hl Hget. split; [|reflexivity].
  simpl. unfold onTick. rewrite Hd, Hl. unfold_run. rewrite Hget. reflexivity.
Qed.

(** A tick neither stays in a select nor panics when its blocking loop
    returns; and a tick that ends in [continue] has closed no channel. *)
Lemma onTick_settles bevs waiting (st : State W) :
  Block (settings p) = false
  \/ ((Signal ∉ bevs) /\ BlockTimeout_ ∈ bevs)
  \/ (closedSigs st = 0%nat /\ (BlockTimeout_ ∈ bevs \/ Signal ∈ bevs)) ->
  let r := onTick client p entry owner name branch bevs waiting st in
  fst r <> Park /\ fst r <> Panic
  /\ (forall w', fst r = Continue w' -> closedSigs (snd r) = closedSigs st).
Proof.
  intros Hb.
  assert (Hafter : forall nb (s : State W),
             closedSigs s = closedSigs st ->
             let r := afterTrigger client p owner name nb bevs s in
             fst r <> Park /\ fst r <> Panic
             /\ (forall w', fst r = Continue w' -> closedSigs (snd r) = closedSigs st)).
  { intros nb s Hs r.
    assert (Hc : forall w', fst r <> Continue w').
    { destruct (afterTrigger_log client p owner name nb bevs s)
        as (? & ? & ? & Hc). exact Hc. }
    assert (Hr : fst r <> Park /\ fst r <> Panic).
    { subst r. unfold afterTrigger.
      destruct (Block (settings p)) eqn:Eb; [|split; discriminate].
      assert (Hn : returned
                     (fst (blockUntilBuildIsFinished client owner name (Number nb)
                             bevs s)) = true).
      { destruct Hb as [Hb|[[Hs1 Hs2]|[Hz Hin]]]; [discriminate| |].
        - apply block_returns; [right; exact Hs1|left; exact Hs2].
        - apply block_returns; [left; congruence|exact Hin]. }
      unfold_run.
      destruct (blockUntilBuildIsFinished client owner name (Number nb) bevs s)
        as [[|err| |] s']; simpl in *; split; discriminate. }
    destruct Hr as [Hr1 Hr2]. split; [exact Hr1|]. split; [exact Hr2|].
    intros w' Hw'. destruct (Hc _ Hw'). }
  cbn zeta. unfold onTick, rebuildTick. unfold_run.
  split_run; simpl;
    first [ apply Hafter; reflexivity
          | split; [discriminate|]; split; [discriminate|];
            first [discriminate|intros; reflexivity] ].
Qed.

(** X24.  The trigger loop returns by its deadline.  On a schedule in which
    the deadline of the trigger loop fires, the loop returns to its caller,
    with nil or with an error, whatever the server answers, in each of these
    cases: without [Block]; with a blocking schedule in which the deadline
    fires and no signal arrives; and, when the process has made no blocking
    call before, with a blocking schedule in which the deadline fires or a
    signal arrives.  (After an earlier blocking call a signal does not make
    the loop return: the process panics.) *)
Theorem pollLoop_returns_by_deadline bevs evs waiting (st : State W) :
  PollTimeout ∈ evs ->
  Block (settings p) = false
  \/ ((Signal ∉ bevs) /\ BlockTimeout_ ∈ bevs)
  \/ (closedSigs st = 0%nat /\ (BlockTimeout_ ∈ bevs \/ Signal ∈ bevs)) ->
  returned (fst (pollLoop client p entry owner name branch bevs evs waiting st))
  = true.
Proof.
  intros Hin Hb. revert waiting st Hb.
  induction evs as [|ev evs IH]; intros waiting st Hb.
  - apply elem_of_nil in Hin. contradiction.
  - destruct ev; [reflexivity|].
    apply elem_of_cons in Hin as [Hin|Hin]; [discriminate|].
    rewrite pollLoop_tick.
    destruct (onTick_settles bevs waiting st Hb) as (Hn1 & Hn2 & Hsigs).
    destruct (fst (onTick client p entry owner name branch bevs waiting st))
      as [w'| |err| |]; try reflexivity; try congruence.
    apply (IH Hin). rewrite (Hsigs w' eq_refl). exact Hb.
Qed.

End DeployChecks.

Lemma deploy_entry_checks_witness :
  executeEntry scripted deployWait "octo/app" (mkSchedule [] []) (start [])
  = (Failure ErrDeployNeedsSelector, start [])
  /\ executeEntry scripted deployWait "octo/app@main" (mkSchedule [] []) (start [])
     = (Failure ErrDeployNumericOnly, start []).
Proof.
  split.
  - exact (proj1 (deploy_entry_checks scripted deployWait "octo/app" "octo" "app"
                    "" (mkSchedule [] []) (start []) eq_refl eq_refl eq_refl)
             eq_refl).
  - exact (proj1 (proj2
             (deploy_entry_checks scripted deployWait "octo/app@main" "octo" "app"
                "main" (mkSchedule [] []) (start []) eq_refl eq_refl eq_refl))
             eq_refl eq_refl eq_refl).
Defined.

Lemma deploy_number_fetch_error_fatal_witness :
  pollLoop scripted deployWait "octo/app@42" "octo" "app" "42" []
    [PollTick; PollTick] true
    (start [RBuild (Err badGateway); RBuild (Ok passing7)])
  = (Failure (ErrRequestedBuild 42 "octo/app@42"),
     mkState [RBuild (Ok passing7)] [mkInvocation (CBuild "octo" "app" 42) false] 0).
Proof.
  exact (proj1
    (deploy_number_fetch_error_fatal scripted deployWait
       "octo/app@42" "octo" "app" "42" [] [PollTick] true badGateway
       [RBuild (Ok passing7)]
       (start [RBuild (Err badGateway); RBuild (Ok passing7)])
       eq_refl eq_refl eq_refl)).
Defined.

Lemma pollLoop_returns_by_deadline_witness :
  returned
    (fst (pollLoop alwaysRunning rebuildWait "octo/app@main" "octo" "app" "main" []
            [PollTick; PollTick; PollTimeout] false (start 0%nat)))
  = true
  /\ returned
       (fst (pollLoop scripted rebuildBlock "octo/app@main" "octo" "app" "main"
               [BlockTick; Signal] [PollTick; PollTimeout] false
               (start [RBuild (Ok passing7); RBuild (Ok pending8);
                       RBuild (Ok running8); RCancel None])))
     = true.
Proof.
  split.
  - apply pollLoop_returns_by_deadline.
    + right. right. left.
    + left. reflexivity.
  - apply pollLoop_returns_by_deadline.
    + right. left.
    + right. right. split; [reflexivity|]. right. right. left.
Defined.

(** ** Errors of the blocking loop, in a run *)

Section BlockingInRun.
Context {W : Type}.
Variable client : Client W.
Variable p : Plugin.

(** The loop over a list in two parts is the loop over the first part and
    then, if that returned nil, the loop over the second part on what is
    left of the schedules. *)
Lemma executeRepos_app (first rest : list string) (scheds : list Schedule)
    (st : State W) :
  executeRepos client p (first ++ rest) scheds st
  = match executeRepos client p first scheds st with
    | (Nil, st') => executeRepos client p rest (drop (length first) scheds) st'
    | stopped => stopped
    end.
Proof.
  revert scheds st. induction first as [|entry first IH]; intros scheds st.
  - simpl. rewrite drop_0. reflexivity.
  - simpl. unfold_run.
    destruct (executeEntry client p entry (hd (mkSchedule [] []) scheds) st)
      as [[|e| |] st']; try reflexivity.
    rewrite IH. destruct scheds as [|sched scheds]; simpl; [|reflexivity].
    rewrite drop_nil. reflexivity.
Qed.

(** A loop that is back at its select goes on with the selects that
    follow. *)
Lemma pollAt_app entry owner name branch bevs pre evs waiting0 waiting
    (st0 st : State W) :
  pollAt client p entry owner name branch bevs pre waiting0 st0
  = Some (waiting, st) ->
  pollLoop client p entry owner name branch bevs (pre ++ evs) waiting0 st0
  = pollLoop client p entry owner name branch bevs evs waiting st.
Proof.
  revert waiting0 st0. induction pre as [|ev pre IH]; intros waiting0 st0.
  - simpl. intros [= -> ->]. reflexivity.
  - destruct ev; simpl; [discriminate|]. unfold_run.
    destruct (onTick client p entry owner name branch bevs waiting0 st0)
      as [[w'| |e| |] st']; try discriminate. apply IH.
Qed.

(** A tick that is inside a blocking select got there by a trigger that
    returned a build: it is the blocking, on the build that the trigger
    returned, that follows that trigger, whatever the selects of the
    blocking loop are. *)
Lemma onTick_blocks entry owner name branch pre waiting (st s2 : State W) :
  onTick client p entry owner name branch pre waiting st = (Park, s2) ->
  exists nb s1,
    Block (settings p) = true
    /\ (exists i, last (calls s1) = Some i /\ isTrigger (op i) = true
                  /\ succeeded i = true /\ repoOf (op i) = (owner, name))
    /\ blockUntilBuildIsFinished client owner name (Number nb) pre s1
       = (Parked, s2)
    /\ forall bevs,
         onTick client p entry owner name branch bevs waiting st
         = afterTrigger client p owner name nb bevs s1.
Proof.
  unfold onTick, rebuildTick. unfold_run.
  split_run; simpl; try (intros H; discriminate H);
    match goal with
    | |- afterTrigger _ _ _ _ ?nb _ ?s = _ -> _ =>
        intros H; exists nb, s; revert H; unfold afterTrigger;
        destruct (Block (settings p)); [|discriminate]; unfold_run;
        destruct (blockUntilBuildIsFinished client owner name (Number nb) pre s)
          as [[|e| |] s'] eqn:Eb; simpl; try discriminate;
        intros [= <-];
        (split; [reflexivity|]);
        (split; [eexists; split; [simpl; apply last_snoc|repeat split]|]);
        (split; [reflexivity|intros; reflexivity])
    end.
Qed.

(** C10.  A failed status fetch of the blocking loop, in a run.  Take any
    run in which the targets ahead of an entry returned nil, the trigger
    loop of the entry came back to its select after any number of ticks, and
    the tick that follows has triggered and is blocking, its loop still
    running after the selects [pre].  Then that tick is watching a build
    [nb] that a trigger of the entry's repository returned, and if the
    status fetch of the next select fails with an error [e], the blocking
    loop returns [e] with that one call more in the log, the tick returns
    [e], and [Execute] returns [e]: the error of the fetch, unchanged, is
    the result of the run.  Neither the selects that follow ([rest], [evs])
    nor the targets that follow ([others]) have any part in it: the fetch is
    not tried again, and no target is processed after it. *)
Theorem block_fetch_error_is_fatal
    before entry others owner name branch scheds ticks evs pre rest waiting
    (st0 stA st s2 : State W) :
  let sched := hd (mkSchedule [] []) (drop (length before) scheds) in
  Repos (settings p) = before ++ entry :: others ->
  executeRepos client p before scheds st0 = (Nil, stA) ->
  parseRepoBranch entry = (owner, name, branch) ->
  isEmpty owner || isEmpty name = false ->
  negb (isEmpty (Deploy (settings p))) && isEmpty branch = false ->
  negb (isEmpty (Deploy (settings p))) && negb (snd (Atoi branch))
  && negb (LastSuccessful (settings p)) = false ->
  poll sched = ticks ++ PollTick :: evs ->
  blocking sched = pre ++ BlockTick :: rest ->
  pollAt client p entry owner name branch (blocking sched) ticks false stA
  = Some (waiting, st) ->
  onTick client p entry owner name branch pre waiting st = (Park, s2) ->
  exists nb s1,
    (exists i, last (calls s1) = Some i /\ isTrigger (op i) = true
               /\ succeeded i = true /\ repoOf (op i) = (owner, name))
    /\ blockUntilBuildIsFinished client owner name (Number nb) pre s1
       = (Parked, s2)
    /\ forall e w',
         GetBuild client owner name (Number nb) (world s2) = (Err e, w') ->
         let s3 :=
           mkState w'
             (calls s2 ++ [mkInvocation (CBuild owner name (Number nb)) false])
             (S (closedSigs s2)) in
         blockUntilBuildIsFinished client owner name (Number nb)
           (pre ++ BlockTick :: rest) s1
         = (Failure e, s3)
         /\ onTick client p entry owner name branch (pre ++ BlockTick :: rest)
              waiting st
            = (Return e, s3)
         /\ Execute client p scheds st0 = (Failure e, s3).
Proof.
  intros sched Hrepos Hbefore Hparse Hacc Hsel Hnum Hpoll Hblocking Hat Htick.
  destruct (onTick_blocks _ _ _ _ _ _ _ _ Htick)
    as (nb & s1 & Hb & Htrig & Hpark & Hall).
  exists nb, s1. split; [exact Htrig|]. split; [exact Hpark|].
  intros e w' Hget s3.
  assert (Hblock : blockUntilBuildIsFinished client owner name (Number nb)
                     (pre ++ BlockTick :: rest) s1
                   = (Failure e, s3)).
  { rewrite (block_app _ _ _ _ _ (BlockTick :: rest) _ _ Hpark). simpl.
    unfold_run. rewrite Hget. reflexivity. }
  assert (Hret : onTick client p entry owner name branch
                   (pre ++ BlockTick :: rest) waiting st
                 = (Return e, s3)).
  { rewrite Hall. unfold afterTrigger. rewrite Hb. unfold_run.
    rewrite Hblock. reflexivity. }
  split; [exact Hblock|]. split; [exact Hret|].
  unfold Execute. rewrite Hrepos, executeRepos_app, Hbefore.
  cbn [executeRepos]. unfold_run. fold sched. unfold executeEntry.
  rewrite Hparse, Hacc, Hsel, Hnum, Hpoll.
  rewrite (pollAt_app _ _ _ _ _ _ (PollTick :: evs) _ _ _ _ Hat).
  rewrite Hblocking. cbn [pollLoop]. unfold_run. rewrite Hret. reflexivity.
Qed.

End BlockingInRun.

Lemma block_fetch_error_is_fatal_witness :
  fst (Execute scripted rebuildWaitBlock
         [mkSchedule [PollTick] [BlockTick];
          mkSchedule [PollTick; PollTick; PollTick]
            [BlockTick; BlockTick; BlockTick]]
         (start [RBuild (Ok passing7); RBuild (Ok pending8);
                 RBuild (Ok (mkBuild 8 StatusPassing "main"));
                 RBuild (Ok (mkBuild 3 StatusRunning "main"));
                 RBuild (Ok (mkBuild 3 StatusPassing "main"));
                 RBuild (Ok (mkBuild 4 StatusPending "main"));
                 RBuild (Ok (mkBuild 4 StatusRunning "main"));
                 RBuild (Err badGateway);
                 RBuild (Ok (mkBuild 4 StatusPassing "main"))]))
  = Failure badGateway.
Proof.
  destruct (block_fetch_error_is_fatal scripted rebuildWaitBlock
              ["octo/app@main"] "octo/lib" [] "octo" "lib" ""
              [mkSchedule [PollTick] [BlockTick];
               mkSchedule [PollTick; PollTick; PollTick]
                 [BlockTick; BlockTick; BlockTick]]
              [PollTick] [PollTick] [BlockTick] [BlockTick] true
              (start [RBuild (Ok passing7); RBuild (Ok pending8);
                      RBuild (Ok (mkBuild 8 StatusPassing "main"));
                      RBuild (Ok (mkBuild 3 StatusRunning "main"));
                      RBuild (Ok (mkBuild 3 StatusPassing "main"));
                      RBuild (Ok (mkBuild 4 StatusPending "main"));
                      RBuild (Ok (mkBuild 4 StatusRunning "main"));
                      RBuild (Err badGateway);
                      RBuild (Ok (mkBuild 4 StatusPassing "main"))])
              _ _ _
              eq_refl eq_refl eq_refl eq_refl eq_refl eq_refl eq_refl eq_refl
              eq_refl eq_refl)
    as (nb & s1 & _ & _ & H).
  destruct (H badGateway [RBuild (Ok (mkBuild 4 StatusPassing "main"))] eq_refl)
    as (_ & _ & HE).
  rewrite HE. reflexivity.
Defined.

(** The run of the witness in full: the first target is restarted and
    passes; the second waits one tick, is restarted as build 4, and the
    second status fetch of its blocking fails; the third select of the
    blocking loop, at which build 4 would have been seen to pass, is never
    served. *)
Example block_fetch_error_ends_the_run :
  Execute scripted rebuildWaitBlock
    [mkSchedule [PollTick] [BlockTick];
     mkSchedule [PollTick; PollTick; PollTick] [BlockTick; BlockTick; BlockTick]]
    (start [RBuild (Ok passing7); RBuild (Ok pending8);
            RBuild (Ok (mkBuild 8 StatusPassing "main"));
            RBuild (Ok (mkBuild 3 StatusRunning "main"));
            RBuild (Ok (mkBuild 3 StatusPassing "main"));
            RBuild (Ok (mkBuild 4 StatusPending "main"));
            RBuild (Ok (mkBuild 4 StatusRunning "main"));
            RBuild (Err badGateway);
            RBuild (Ok (mkBuild 4 StatusPassing "main"))])
  = (Failure badGateway,
     mkState [RBuild (Ok (mkBuild 4 StatusPassing "main"))]
       [mkInvocation (CBuildLast "octo" "app" "main") true;
        mkInvocation (CBuildRestart "octo" "app" 7 ∅) true;
        mkInvocation (CBuild "octo" "app" 8) true;
        mkInvocation (CBuildLast "octo" "lib" "") true;
        mkInvocation (CBuildLast "octo" "lib" "") true;
        mkInvocation (CBuildRestart "octo" "lib" 3 ∅) true;
        mkInvocation (CBuild "octo" "lib" 4) true;
        mkInvocation (CBuild "octo" "lib" 4) false] 2).
Proof. reflexivity. Qed.
